(** * Terraform-Agent: relevance selector and response reconciler

    A shallow embedding of [terraform_agents/terraform_analyzer.py]
    (class [TerraformAnalyzer]) and of the response parsing of
    [terraform_agents/llm.py] (class [LLMClient]), with the properties
    the specification states about them.

    Conventions of the embedding.
    - A Python [str] is a [string]; the alphabet is the 8-bit one, and the
      character classes ([\w], [\s]), [str.lower] and [str.strip] are the
      ones Python has on ASCII text.
    - A Python [dict] is an association list in insertion order whose keys
      are pairwise distinct ([dict_set] keeps them so).
    - A regular expression of the source is a term of type [Re.re], run by
      a backtracking matcher with the priorities of Python's [re] module
      (leftmost start, greedy or lazy repetition, first alternative first).
    - [list(set(xs))] is [nodup] of [xs]: Python leaves the order of a set
      unspecified, and no statement below depends on it. *)

From Stdlib Require Import String Ascii List Bool Arith Lia ZArith.
Import ListNotations.

Local Open Scope string_scope.
Local Open Scope list_scope.

(** ** Python strings *)

Module PyStr.

Definition code (c : ascii) : N := N_of_ascii c.

Definition between (lo hi : N) (c : ascii) : bool :=
  (N.leb lo (code c) && N.leb (code c) hi)%bool.

Definition is_upper : ascii -> bool := between 65 90.
Definition is_lower : ascii -> bool := between 97 122.
Definition is_digit : ascii -> bool := between 48 57.

(** [\s] and [str.isspace] on ASCII: tab, newline, vertical tab, form
    feed, carriage return, the four separators 0x1c-0x1f, and space. *)
Definition is_space (c : ascii) : bool :=
  (between 9 13 c || between 28 32 c)%bool.

(** [\w] on ASCII: letters, digits and the underscore. *)
Definition is_word (c : ascii) : bool :=
  (is_upper c || is_lower c || is_digit c || Ascii.eqb c "_")%bool.

Definition lower_char (c : ascii) : ascii :=
  if is_upper c then ascii_of_N (code c + 32) else c.

(** [s.lower()] *)
Fixpoint lower (s : string) : string :=
  match s with
  | EmptyString => EmptyString
  | String c s' => String (lower_char c) (lower s')
  end.

(** [s.startswith(p)] *)
Fixpoint startswith (s p : string) : bool :=
  match p, s with
  | EmptyString, _ => true
  | String _ _, EmptyString => false
  | String b p', String a s' => (Ascii.eqb a b && startswith s' p')%bool
  end.

(** [sub in s] *)
Fixpoint contains (s sub : string) : bool :=
  (startswith s sub ||
   match s with
   | EmptyString => false
   | String _ s' => contains s' sub
   end)%bool.

(** [s.endswith(p)] *)
Fixpoint endswith (s p : string) : bool :=
  (String.eqb s p ||
   match s with
   | EmptyString => false
   | String _ s' => endswith s' p
   end)%bool.

(** [s.lstrip()] *)
Fixpoint lstrip (s : string) : string :=
  match s with
  | EmptyString => EmptyString
  | String c s' => if is_space c then lstrip s' else s
  end.

(** [s.rstrip()] *)
Fixpoint rstrip (s : string) : string :=
  match s with
  | EmptyString => EmptyString
  | String c s' =>
      match rstrip s' with
      | EmptyString => if is_space c then EmptyString else String c EmptyString
      | r => String c r
      end
  end.

(** [s.strip()] *)
Definition strip (s : string) : string := rstrip (lstrip s).

(** The one-character strings the models need and a literal cannot hold. *)
Definition dquote : ascii := "034"%char.
Definition newline : ascii := "010"%char.
Definition nl : string := String newline EmptyString.

(** [q s] is [s] with every apostrophe replaced by a double quote: the
    way the examples below write JSON and Terraform text. *)
Fixpoint q (s : string) : string :=
  match s with
  | EmptyString => EmptyString
  | String c s' => String (if Ascii.eqb c "'" then dquote else c) (q s')
  end.

End PyStr.

(** ** Python dictionaries *)

Section Dict.
Context {V : Type}.

Definition dict := list (string * V).

Definition keys (d : dict) : list string := map fst d.

(** [d.get(k)] *)
Fixpoint dict_get (d : dict) (k : string) : option V :=
  match d with
  | [] => None
  | (k', v) :: d' => if String.eqb k' k then Some v else dict_get d' k
  end.

(** [k in d] *)
Definition dict_mem (d : dict) (k : string) : bool :=
  existsb (String.eqb k) (keys d).

(** [d[k] = v]: a present key keeps its place, a new one goes last. *)
Fixpoint dict_set (d : dict) (k : string) (v : V) : dict :=
  match d with
  | [] => [(k, v)]
  | (k', v') :: d' =>
      if String.eqb k' k then (k, v) :: d' else (k', v') :: dict_set d' k v
  end.

(** [d.update(other)] *)
Definition dict_update (d other : dict) : dict :=
  fold_left (fun acc kv => dict_set acc (fst kv) (snd kv)) other d.

End Dict.
Arguments dict V : clear implicits.

(** ** Regular expressions, as Python's [re] runs them *)

Module Re.

(** The constructs the patterns of the program use.  A repetition is
    always over a character class. *)
Inductive re : Type :=
| Eps                                          (* the empty pattern *)
| Chr (c : ascii)                              (* a literal character *)
| Cls (p : ascii -> bool)                      (* a class, [[...]], [\w], [\s] *)
| Star (greedy : bool) (p : ascii -> bool)     (* [p*] and [p*?] *)
| Seq (r1 r2 : re)
| Alt (r1 r2 : re)                             (* [r1|r2] *)
| Group (n : nat) (r : re)                     (* the n-th capturing group *)
| Ahead (r : re)                               (* [(?=r)] *)
| Eol                                          (* [$] *)
| Bound.                                       (* [\b] *)

Fixpoint lit (s : string) : re :=
  match s with
  | EmptyString => Eps
  | String c s' => Seq (Chr c) (lit s')
  end.

Fixpoint cat (rs : list re) : re :=
  match rs with
  | [] => Eps
  | r :: rs' => Seq r (cat rs')
  end.

(** [p+] *)
Definition plus (p : ascii -> bool) : re := Seq (Cls p) (Star true p).

(** The matcher's position: the character before it, its index, the text
    from it on, and the groups captured so far (latest first). *)
Record state : Type := mk_state {
  prev : option ascii;
  pos : nat;
  rest : string;
  groups : list (nat * string)
}.

Definition word_before (st : state) : bool :=
  match prev st with Some c => PyStr.is_word c | None => false end.
Definition word_after (st : state) : bool :=
  match rest st with String c _ => PyStr.is_word c | EmptyString => false end.

(** [$] without MULTILINE: the end of the text, or just before a newline
    that ends it. *)
Definition at_eol (st : state) : bool :=
  match rest st with
  | EmptyString => true
  | String c EmptyString => Ascii.eqb c PyStr.newline
  | _ => false
  end.

(** [p*] from the position [(pv, i, s)], then the rest of the pattern [k]:
    the longest run of [p] first, giving back one character at a time. *)
Fixpoint star_greedy (p : ascii -> bool) (k : state -> option state)
    (gs : list (nat * string)) (pv : option ascii) (i : nat) (s : string)
    {struct s} : option state :=
  match s with
  | String a s' =>
      if p a
      then match star_greedy p k gs (Some a) (S i) s' with
           | Some r => Some r
           | None => k (mk_state pv i s gs)
           end
      else k (mk_state pv i s gs)
  | EmptyString => k (mk_state pv i s gs)
  end.

(** [p*?]: the shortest run of [p] first, taking one more character at a
    time. *)
Fixpoint star_lazy (p : ascii -> bool) (k : state -> option state)
    (gs : list (nat * string)) (pv : option ascii) (i : nat) (s : string)
    {struct s} : option state :=
  match k (mk_state pv i s gs) with
  | Some r => Some r
  | None =>
      match s with
      | String a s' => if p a then star_lazy p k gs (Some a) (S i) s' else None
      | EmptyString => None
      end
  end.

(** [run r st k]: match [r] at [st], then the rest of the pattern [k];
    the first success in Python's order of preference. *)
Fixpoint run (r : re) (st : state) (k : state -> option state) {struct r}
  : option state :=
  match r with
  | Eps => k st
  | Chr c =>
      match rest st with
      | String a s' =>
          if Ascii.eqb a c
          then k (mk_state (Some a) (S (pos st)) s' (groups st))
          else None
      | EmptyString => None
      end
  | Cls p =>
      match rest st with
      | String a s' =>
          if p a
          then k (mk_state (Some a) (S (pos st)) s' (groups st))
          else None
      | EmptyString => None
      end
  | Star true p => star_greedy p k (groups st) (prev st) (pos st) (rest st)
  | Star false p => star_lazy p k (groups st) (prev st) (pos st) (rest st)
  | Seq r1 r2 => run r1 st (fun st' => run r2 st' k)
  | Alt r1 r2 =>
      match run r1 st k with
      | Some r => Some r
      | None => run r2 st k
      end
  | Group n r =>
      run r st (fun st' =>
        k (mk_state (prev st') (pos st') (rest st')
             ((n, substring 0 (pos st' - pos st) (rest st)) :: groups st')))
  | Ahead r =>
      match run r st Some with
      | Some _ => k st
      | None => None
      end
  | Eol => if at_eol st then k st else None
  | Bound => if xorb (word_before st) (word_after st) then k st else None
  end.

(** A match object: [m.start()], [m.end()], [m.group(0)] and the
    numbered groups. *)
Record match_obj : Type := mk_match {
  m_start : nat;
  m_end : nat;
  group0 : string;
  m_groups : list (nat * string)
}.

(** [m.group(n)] for [n >= 1] (the patterns here set every group of a
    match, so a missing one reads as the empty string). *)
Fixpoint lookup_group (gs : list (nat * string)) (n : nat) : string :=
  match gs with
  | [] => EmptyString
  | (n', s) :: gs' => if Nat.eqb n' n then s else lookup_group gs' n
  end.
Definition group (m : match_obj) (n : nat) : string :=
  lookup_group (m_groups m) n.

(** A match of [r] that starts exactly at index [i], where [s] is the
    text from [i] on and [pv] the character before. *)
Definition match_at (r : re) (pv : option ascii) (i : nat) (s : string)
  : option match_obj :=
  match run r (mk_state pv i s []) Some with
  | Some st => Some (mk_match i (pos st) (substring 0 (pos st - i) s) (groups st))
  | None => None
  end.

(** [re.search]: the leftmost match. *)
Fixpoint search_from (r : re) (pv : option ascii) (i : nat) (s : string)
  : option match_obj :=
  match match_at r pv i s with
  | Some m => Some m
  | None =>
      match s with
      | String a s' => search_from r (Some a) (S i) s'
      | EmptyString => None
      end
  end.
Definition search (r : re) (text : string) : option match_obj :=
  search_from r None 0 text.

(** [re.finditer]: the matches from left to right, each search starting
    where the previous match ended; [skip] counts the characters of the
    previous match still to pass.  (No pattern of the program matches the
    empty string; after an empty match the scan moves on by one.) *)
Fixpoint finditer_from (r : re) (pv : option ascii) (i : nat) (s : string)
    (skip : nat) {struct s} : list match_obj :=
  match skip with
  | S n =>
      match s with
      | String a s' => finditer_from r (Some a) (S i) s' n
      | EmptyString => []
      end
  | O =>
      match match_at r pv i s with
      | Some m =>
          m :: match s with
               | String a s' =>
                   finditer_from r (Some a) (S i) s' (m_end m - i - 1)
               | EmptyString => []
               end
      | None =>
          match s with
          | String a s' => finditer_from r (Some a) (S i) s' 0
          | EmptyString => []
          end
      end
  end.
Definition finditer (r : re) (text : string) : list match_obj :=
  finditer_from r None 0 text 0.

End Re.

(** ** [posixpath]: the three functions the graph builder calls *)

Module PosixPath.

Definition slash : ascii := "/"%char.

(** [p.split('/')] *)
Fixpoint split (p : string) : list string :=
  match p with
  | EmptyString => [EmptyString]
  | String c p' =>
      if Ascii.eqb c slash then EmptyString :: split p'
      else match split p' with
           | [] => [String c EmptyString]
           | w :: ws => String c w :: ws
           end
  end.

(** ['/'.join(comps)] *)
Fixpoint join_comps (comps : list string) : string :=
  match comps with
  | [] => EmptyString
  | [w] => w
  | w :: ws => (w ++ String slash (join_comps ws))%string
  end.

(** [p[:p.rfind('/') + 1]] *)
Fixpoint head_of (p : string) : string :=
  match p with
  | EmptyString => EmptyString
  | String c p' =>
      if Ascii.eqb c slash then String c (head_of p')
      else match head_of p' with
           | EmptyString => EmptyString
           | h => String c h
           end
  end.

Fixpoint all_slashes (p : string) : bool :=
  match p with
  | EmptyString => true
  | String c p' => (Ascii.eqb c slash && all_slashes p')%bool
  end.

(** [p.rstrip('/')] *)
Fixpoint rstrip_slashes (p : string) : string :=
  match p with
  | EmptyString => EmptyString
  | String c p' =>
      match rstrip_slashes p' with
      | EmptyString => if Ascii.eqb c slash then EmptyString else String c EmptyString
      | r => String c r
      end
  end.

(** [os.path.dirname(p)] *)
Definition dirname (p : string) : string :=
  let head := head_of p in
  if all_slashes head then head else rstrip_slashes head.

(** [os.path.join(a, b)] *)
Definition join (a b : string) : string :=
  if PyStr.startswith b "/" then b
  else if (String.eqb a EmptyString || PyStr.endswith a "/")%bool then (a ++ b)%string
  else (a ++ String slash b)%string.

(** The loop of [normpath] over the components; [new_comps] is kept
    reversed (its last element first). *)
Fixpoint norm_comps (initial_slashes : nat) (comps new_comps : list string)
  : list string :=
  match comps with
  | [] => rev new_comps
  | comp :: comps' =>
      if (String.eqb comp EmptyString || String.eqb comp ".")%bool
      then norm_comps initial_slashes comps' new_comps
      else if (negb (String.eqb comp "..")
               || (Nat.eqb initial_slashes 0 && match new_comps with [] => true | _ => false end)
               || match new_comps with last :: _ => String.eqb last ".." | [] => false end)%bool
      then norm_comps initial_slashes comps' (comp :: new_comps)
      else norm_comps initial_slashes comps' (tl new_comps)
  end.

(** [os.path.normpath(path)] *)
Definition normpath (path : string) : string :=
  if String.eqb path EmptyString then "."
  else
    let initial_slashes :=
      if PyStr.startswith path "/"
      then if (PyStr.startswith path "//" && negb (PyStr.startswith path "///"))%bool
           then 2 else 1
      else 0 in
    let comps := norm_comps initial_slashes (split path) [] in
    let path' :=
      ((match initial_slashes with 0 => EmptyString | 1 => "/" | _ => "//" end)
         ++ join_comps comps)%string in
    if String.eqb path' EmptyString then "." else path'.

End PosixPath.

(** ** [terraform_analyzer.py] *)

Module Analyzer.
Import PyStr.

Definition any_char (c : ascii) : bool := true.
Definition one_of (cs : string) (c : ascii) : bool :=
  existsb (Ascii.eqb c) (list_ascii_of_string cs).
Definition word_or (cs : string) (c : ascii) : bool :=
  (is_word c || one_of cs c)%bool.
Definition quote_char (c : ascii) : bool :=
  (Ascii.eqb c dquote || Ascii.eqb c "'")%bool.

(** [module\s+["\']([\w-]+)["\']\s*{[^}]*source\s*=\s*["\']([\w\.\/-]+)["\']] *)
Definition module_pattern : Re.re :=
  Re.cat [ Re.lit "module"; Re.plus is_space; Re.Cls quote_char;
           Re.Group 1 (Re.plus (word_or "-")); Re.Cls quote_char;
           Re.Star true is_space; Re.Chr "{";
           Re.Star true (fun c => negb (Ascii.eqb c "}"));
           Re.lit "source"; Re.Star true is_space; Re.Chr "=";
           Re.Star true is_space; Re.Cls quote_char;
           Re.Group 2 (Re.plus (word_or "./-")); Re.Cls quote_char ].

(** [var\.([a-zA-Z0-9_-]+)] *)
Definition var_pattern : Re.re :=
  Re.cat [ Re.lit "var."; Re.Group 1 (Re.plus (word_or "-")) ].

(** [\b\w{3,}\b] *)
Definition word_pattern : Re.re :=
  Re.cat [ Re.Bound; Re.Cls is_word; Re.Cls is_word; Re.Cls is_word;
           Re.Star true is_word; Re.Bound ].

Record TerraformAnalyzer : Type := mk_analyzer {
  file_contents : dict string;
  dependency_graph : dict (list string)
}.

Definition _extract_module_sources (content : string) : list string :=
  map (fun m => Re.group m 2) (Re.finditer module_pattern content).

Definition _extract_variable_references (content : string) : list string :=
  nodup string_dec (map (fun m => Re.group m 1) (Re.finditer var_pattern content)).

(** [graph[file_path].append(other_file)]; the key is always present,
    see [load_same_keys]. *)
Fixpoint graph_append (graph : dict (list string)) (file_path other_file : string)
  : dict (list string) :=
  match graph with
  | [] => []
  | (k, deps) :: graph' =>
      if String.eqb k file_path then (k, deps ++ [other_file]) :: graph'
      else (k, deps) :: graph_append graph' file_path other_file
  end.

Definition add_edges (graph : dict (list string)) (file_path : string)
    (targets : list string) : dict (list string) :=
  fold_left (fun g other_file => graph_append g file_path other_file) targets graph.

(** The files a module source of [file_path] points at (lines 51-60). *)
Definition module_targets (contents : dict string) (file_path source : string)
  : list string :=
  if (startswith source "./" || startswith source "../")%bool then
    let source_dir :=
      PosixPath.normpath (PosixPath.join (PosixPath.dirname file_path) source) in
    filter (fun other_file => startswith other_file source_dir) (keys contents)
  else [].

(** [f'variable "{var_name}"'] *)
Definition declaration_of (var_name : string) : string :=
  ("variable " ++ String dquote var_name ++ String dquote EmptyString)%string.

(** The files that declare a variable (lines 67-69). *)
Definition variable_targets (contents : dict string) (var_name : string)
  : list string :=
  map fst (filter (fun kv => contains (snd kv) (declaration_of var_name)) contents).

Definition file_edges (contents : dict string) (graph : dict (list string))
    (file_path content : string) : dict (list string) :=
  let module_sources := _extract_module_sources content in
  let var_refs := _extract_variable_references content in
  let graph1 :=
    fold_left (fun g source => add_edges g file_path (module_targets contents file_path source))
      module_sources graph in
  fold_left (fun g var_name => add_edges g file_path (variable_targets contents var_name))
    var_refs graph1.

Definition _build_dependency_graph (self : TerraformAnalyzer) : TerraformAnalyzer :=
  mk_analyzer (file_contents self)
    (fold_left (fun g kv => file_edges (file_contents self) g (fst kv) (snd kv))
       (file_contents self) (dependency_graph self)).

(** [_load_terraform_files], given the readable [.tf] files found under
    the repository as (relative path, text) in the order of the glob. *)
Definition _load_terraform_files (files : list (string * string)) : TerraformAnalyzer :=
  _build_dependency_graph
    (fold_left (fun self f =>
                  mk_analyzer (dict_set (file_contents self) (fst f) (snd f))
                              (dict_set (dependency_graph self) (fst f) []))
       files (mk_analyzer [] [])).

(** [TerraformAnalyzer(repo_path)] *)
Definition init (files : list (string * string)) : TerraformAnalyzer :=
  _load_terraform_files files.

Definition terraform_keywords : list string :=
  [ "vpc"; "subnet"; "security_group"; "nacl"; "sg"; "security"; "network";
    "flow_log"; "encryption"; "firewall"; "route"; "gateway"; "iam"; "policy";
    "ec2"; "rds"; "lambda"; "s3"; "kms"; "ssl"; "tls"; "https"; "alb"; "elb";
    "load_balancer"; "autoscaling"; "cloudwatch"; "logs"; "cloudtrail";
    "monitoring"; "alerts"; "backup"; "storage" ].

Definition stop_words : list string :=
  [ "update"; "the"; "by"; "adding"; "and"; "or"; "with"; "for"; "to"; "in";
    "on"; "a"; "an"; "this"; "that"; "these"; "those"; "our"; "your"; "my";
    "mine"; "we"; "need"; "want"; "should"; "will" ].

Definition in_list (w : string) (ws : list string) : bool :=
  existsb (String.eqb w) ws.

Definition _extract_keywords_from_prompt (prompt : string) : list string :=
  let prompt_lower := lower prompt in
  let found_keywords :=
    filter (fun keyword => contains prompt_lower keyword) terraform_keywords in
  match found_keywords with
  | [] =>
      let words := map Re.group0 (Re.finditer word_pattern prompt_lower) in
      filter (fun word => negb (in_list word stop_words)) words
  | _ => found_keywords
  end.

(** [self.dependency_graph.get(file_path, [])] *)
Definition edges (graph : dict (list string)) (file_path : string) : list string :=
  match dict_get graph file_path with
  | Some deps => deps
  | None => []
  end.

(** The [for dep in ...] loop of [_find_all_dependencies] (lines 242-246),
    [call] being the recursive call; it ends with [list(set(dependencies))]. *)
Fixpoint dependencies_loop
    (call : string -> list string -> option (list string * list string))
    (deps dependencies visited : list string) {struct deps}
  : option (list string * list string) :=
  match deps with
  | [] => Some (nodup string_dec dependencies, visited)
  | dep :: deps' =>
      match call dep visited with
      | None => None
      | Some (sub, visited') =>
          dependencies_loop call deps' (dependencies ++ [dep] ++ sub) visited'
      end
  end.

(** The recursion of [_find_all_dependencies].  [visited] is the shared
    set, written as the list of the arguments of [visited.add], latest
    first: membership is the set's, and an element listed twice would be
    a node expanded twice.  [fuel] bounds the depth of the recursion;
    [None] is a recursion cut short by it. *)
Fixpoint find_all_dependencies_rec (fuel : nat) (graph : dict (list string))
    (file_path : string) (visited : list string) {struct fuel}
  : option (list string * list string) :=
  match fuel with
  | O => None
  | S fuel' =>
      if in_list file_path visited then Some ([], visited)
      else dependencies_loop (find_all_dependencies_rec fuel' graph)
             (edges graph file_path) [] (file_path :: visited)
  end.

(** Every string the graph mentions. *)
Definition graph_nodes (graph : dict (list string)) : list string :=
  keys graph ++ concat (map snd graph).

(** [self._find_all_dependencies(file_path)], called with [visited=None];
    the fuel is enough, see [top_call_returns]. *)
Definition _find_all_dependencies (self : TerraformAnalyzer) (file_path : string)
  : list string :=
  match find_all_dependencies_rec (2 + length (graph_nodes (dependency_graph self)))
          (dependency_graph self) file_path [] with
  | Some (dependencies, _) => dependencies
  | None => []
  end.

Definition matches_any (keywords : list string) (file_path content : string) : bool :=
  (existsb (fun keyword => contains (lower content) keyword) keywords
   || existsb (fun keyword => contains (lower file_path) keyword) keywords)%bool.

(** First pass (lines 100-106). *)
Definition keyword_pass (self : TerraformAnalyzer) (keywords : list string)
  : dict string :=
  fold_left (fun relevant_files kv =>
               if matches_any keywords (fst kv) (snd kv)
               then dict_set relevant_files (fst kv) (snd kv)
               else relevant_files)
    (file_contents self) [].

Definition vpc_keywords : list string :=
  [ "vpc"; "subnet"; "cidr"; "network"; "route"; "gateway" ].

(** VPC pass (lines 109-118). *)
Definition vpc_pass (self : TerraformAnalyzer) (prompt : string)
    (relevant_files : dict string) : dict string :=
  if existsb (fun vpc_term => contains (lower prompt) vpc_term) ["vpc"; "network"]
  then fold_left (fun relevant_files kv =>
                    if (negb (dict_mem relevant_files (fst kv))
                        && matches_any vpc_keywords (fst kv) (snd kv))%bool
                    then dict_set relevant_files (fst kv) (snd kv)
                    else relevant_files)
         (file_contents self) relevant_files
  else relevant_files.

(** The dictionary [dependency_files] of the second pass (lines 121-127). *)
Definition dependency_files_of (self : TerraformAnalyzer) (relevant_files : dict string)
  : dict string :=
  fold_left (fun dependency_files file_path =>
               fold_left (fun dependency_files dep =>
                            if negb (dict_mem relevant_files dep)
                            then match dict_get (file_contents self) dep with
                                 | Some content => dict_set dependency_files dep content
                                 | None => dependency_files
                                 end
                            else dependency_files)
                 (_find_all_dependencies self file_path) dependency_files)
    (keys relevant_files) [].

(** Second pass and [relevant_files.update(dependency_files)]. *)
Definition dependency_pass (self : TerraformAnalyzer) (relevant_files : dict string)
  : dict string :=
  dict_update relevant_files (dependency_files_of self relevant_files).

Definition important_names : list string := ["main.tf"; "variables.tf"; "outputs.tf"].
Definition important (file_path : string) : bool :=
  existsb (endswith file_path) important_names.

(** The fallback (lines 133-139). *)
Definition fallback_pass (self : TerraformAnalyzer) (relevant_files : dict string)
  : dict string :=
  if Nat.ltb (length relevant_files) 3
  then fold_left (fun relevant_files kv =>
                    if (negb (dict_mem relevant_files (fst kv)) && important (fst kv))%bool
                    then dict_set relevant_files (fst kv) (snd kv)
                    else relevant_files)
         (file_contents self) relevant_files
  else relevant_files.

Definition find_relevant_files (self : TerraformAnalyzer) (prompt : string)
  : dict string :=
  let keywords := _extract_keywords_from_prompt prompt in
  let relevant_files := keyword_pass self keywords in
  let relevant_files := vpc_pass self prompt relevant_files in
  let relevant_files := dependency_pass self relevant_files in
  fallback_pass self relevant_files.

End Analyzer.

(** ** [json.loads], as CPython's [json.decoder] and [json.scanner] read a text

    The model has neither CPython's recursion limit nor its limit on the
    digits of an integer: on a text nested thousands of levels deep, or on
    an integer of thousands of digits, CPython raises [RecursionError] or
    [ValueError] where the model parses on. *)

Module Json.
Import PyStr.

(** The values [json.loads] builds: [None], [bool], [int], [float] (kept
    as its lexeme), [str], [list] and [dict]. *)
#[local] Set Warnings "-register-all".
Inductive value : Type :=
| Null
| Bool (b : bool)
| Int (z : Z)
| Float (lexeme : string)
| Str (s : string)
| Arr (items : list value)
| Obj (members : dict value).

Inductive parsed (A : Type) : Type :=
| Ok (a : A) (rest : string)
| DecodeError                    (* [raise JSONDecodeError] *)
| OutOfFuel.
Arguments Ok {A} a rest.
Arguments DecodeError {A}.
Arguments OutOfFuel {A}.

(** [WHITESPACE = [ \t\n\r]*] *)
Definition is_ws (c : ascii) : bool := Analyzer.one_of " " c || between 9 10 c || between 13 13 c.
Fixpoint skip_ws (s : string) : string :=
  match s with
  | EmptyString => EmptyString
  | String c s' => if is_ws c then skip_ws s' else s
  end.

Fixpoint drop (n : nat) (s : string) : string :=
  match n, s with
  | S n', String _ s' => drop n' s'
  | _, _ => s
  end.

Definition hex_digit (c : ascii) : option N :=
  if is_digit c then Some (code c - 48)%N
  else if between 97 102 c then Some (code c - 87)%N
  else if between 65 70 c then Some (code c - 55)%N
  else None.

(** [_decode_uXXXX] on the four characters after [\u]. *)
Definition hex4 (a b c d : ascii) : option N :=
  match hex_digit a, hex_digit b, hex_digit c, hex_digit d with
  | Some x, Some y, Some z, Some w => Some (((x * 16 + y) * 16 + z) * 16 + w)%N
  | _, _, _, _ => None
  end.

(** [chr(uni)]; a code point above 255 is outside the 8-bit alphabet of
    the embedding and is written as a question mark. *)
Definition chr (uni : N) : ascii :=
  if N.ltb uni 256 then ascii_of_N uni else "?"%char.

(** [BACKSLASH] *)
Definition backslash_escape (esc : ascii) : option ascii :=
  if Ascii.eqb esc dquote then Some dquote
  else if Ascii.eqb esc "\" then Some "\"%char
  else if Ascii.eqb esc "/" then Some "/"%char
  else if Ascii.eqb esc "b" then Some "008"%char
  else if Ascii.eqb esc "f" then Some "012"%char
  else if Ascii.eqb esc "n" then Some "010"%char
  else if Ascii.eqb esc "r" then Some "013"%char
  else if Ascii.eqb esc "t" then Some "009"%char
  else None.

Definition cons_char (c : ascii) (r : option (string * string))
  : option (string * string) :=
  match r with
  | Some (str, rest) => Some (String c str, rest)
  | None => None
  end.

(** [scanstring(s, end, strict=True)] from just after the opening quote:
    the decoded string and the text after the closing quote. *)
Fixpoint scanstring (s : string) : option (string * string) :=
  match s with
  | EmptyString => None
  | String c s1 =>
      if Ascii.eqb c dquote then Some (EmptyString, s1)
      else if Ascii.eqb c "\" then
        match s1 with
        | EmptyString => None
        | String esc s2 =>
            if Ascii.eqb esc "u" then
              match s2 with
              | String h1 (String h2 (String h3 (String h4 s3))) =>
                  match hex4 h1 h2 h3 h4 with
                  | None => None
                  | Some uni =>
                      if (N.leb 55296 uni && N.leb uni 56319)%bool then
                        match s3 with
                        | String b (String u (String l1 (String l2 (String l3 (String l4 s4))))) =>
                            if (Ascii.eqb b "\" && Ascii.eqb u "u")%bool then
                              match hex4 l1 l2 l3 l4 with
                              | None => None
                              | Some uni2 =>
                                  if (N.leb 56320 uni2 && N.leb uni2 57343)%bool
                                  then cons_char "?" (scanstring s4)
                                  else cons_char (chr uni) (scanstring s3)
                              end
                            else cons_char (chr uni) (scanstring s3)
                        | _ => cons_char (chr uni) (scanstring s3)
                        end
                      else cons_char (chr uni) (scanstring s3)
                  end
              | _ => None
              end
            else
              match backslash_escape esc with
              | Some ch => cons_char ch (scanstring s2)
              | None => None
              end
        end
      else if N.ltb (code c) 32 then None
      else cons_char c (scanstring s1)
  end.

Definition nonzero_digit : ascii -> bool := between 49 57.
Definition opt (r : Re.re) : Re.re := Re.Alt r Re.Eps.

(** [NUMBER_RE], with a space added before each closing parenthesis that
    follows a star: [(-?(?:0|[1-9][0-9]* ))(\.[0-9]+)?([eE][-+]?[0-9]+)?] *)
Definition NUMBER_RE : Re.re :=
  Re.cat [ Re.Group 1 (Re.Seq (opt (Re.Chr "-"))
                         (Re.Alt (Re.Chr "0")
                                 (Re.Seq (Re.Cls nonzero_digit) (Re.Star true is_digit))));
           opt (Re.Group 2 (Re.Seq (Re.Chr ".") (Re.plus is_digit)));
           opt (Re.Group 3 (Re.cat [ Re.Cls (Analyzer.one_of "eE");
                                     opt (Re.Cls (Analyzer.one_of "-+"));
                                     Re.plus is_digit ])) ].

(** [int(integer)] on a lexeme of [NUMBER_RE]'s first group. *)
Fixpoint digits_value (s : string) (acc : Z) : Z :=
  match s with
  | EmptyString => acc
  | String c s' => digits_value s' (10 * acc + Z.of_N (code c - 48))%Z
  end.
Definition int_of (s : string) : Z :=
  match s with
  | String "-" s' => (- digits_value s' 0)%Z
  | _ => digits_value s 0
  end.

Definition has_group (m : Re.match_obj) (n : nat) : bool :=
  existsb (fun g => Nat.eqb (fst g) n) (Re.m_groups m).

(** [dict(pairs)] *)
Definition dict_of (pairs : list (string * value)) : dict value :=
  fold_left (fun d kv => dict_set d (fst kv) (snd kv)) pairs [].

(** [scan_once], [JSONObject] and [JSONArray]; the two loops start where
    the Python [while True] starts. *)
Fixpoint scan_once (fuel : nat) (s : string) {struct fuel} : parsed value :=
  match fuel with
  | O => OutOfFuel
  | S fuel' =>
      match s with
      | EmptyString => DecodeError
      | String nextchar s1 =>
          if Ascii.eqb nextchar dquote then
            match scanstring s1 with
            | Some (str, rest) => Ok (Str str) rest
            | None => DecodeError
            end
          else if Ascii.eqb nextchar "{" then
            match skip_ws s1 with
            | String c s2 =>
                if Ascii.eqb c "}" then Ok (Obj []) s2
                else if Ascii.eqb c dquote then object_loop fuel' s2 []
                else DecodeError
            | EmptyString => DecodeError
            end
          else if Ascii.eqb nextchar "[" then
            match skip_ws s1 with
            | String "]" s2 => Ok (Arr []) s2
            | s2 => array_loop fuel' s2 []
            end
          else if startswith s "null" then Ok Null (drop 4 s)
          else if startswith s "true" then Ok (Bool true) (drop 4 s)
          else if startswith s "false" then Ok (Bool false) (drop 5 s)
          else
            match Re.match_at NUMBER_RE None 0 s with
            | Some m =>
                Ok (if (has_group m 2 || has_group m 3)%bool
                    then Float (Re.group0 m)
                    else Int (int_of (Re.group m 1)))
                   (drop (Re.m_end m) s)
            | None =>
                if startswith s "NaN" then Ok (Float "NaN") (drop 3 s)
                else if startswith s "Infinity" then Ok (Float "Infinity") (drop 8 s)
                else if startswith s "-Infinity" then Ok (Float "-Infinity") (drop 9 s)
                else DecodeError
            end
      end
  end

with object_loop (fuel : nat) (s : string) (pairs : list (string * value))
    {struct fuel} : parsed value :=
  match fuel with
  | O => OutOfFuel
  | S fuel' =>
      match scanstring s with
      | None => DecodeError
      | Some (key, s1) =>
          match skip_ws s1 with
          | String ":" s2 =>
              match scan_once fuel' (skip_ws s2) with
              | Ok v s3 =>
                  match skip_ws s3 with
                  | String c s4 =>
                      if Ascii.eqb c "}" then Ok (Obj (dict_of (pairs ++ [(key, v)]))) s4
                      else if Ascii.eqb c "," then
                        match skip_ws s4 with
                        | String c' s5 =>
                            if Ascii.eqb c' dquote
                            then object_loop fuel' s5 (pairs ++ [(key, v)])
                            else DecodeError
                        | EmptyString => DecodeError
                        end
                      else DecodeError
                  | EmptyString => DecodeError
                  end
              | DecodeError => DecodeError
              | OutOfFuel => OutOfFuel
              end
          | _ => DecodeError
          end
      end
  end

with array_loop (fuel : nat) (s : string) (values : list value)
    {struct fuel} : parsed value :=
  match fuel with
  | O => OutOfFuel
  | S fuel' =>
      match scan_once fuel' s with
      | Ok v s1 =>
          match skip_ws s1 with
          | String c s2 =>
              if Ascii.eqb c "]" then Ok (Arr (values ++ [v])) s2
              else if Ascii.eqb c "," then array_loop fuel' (skip_ws s2) (values ++ [v])
              else DecodeError
          | EmptyString => DecodeError
          end
      | DecodeError => DecodeError
      | OutOfFuel => OutOfFuel
      end
  end.

(** [JSONDecoder.decode]: one value between optional whitespace, and
    nothing after it.  The fuel never runs out, see [loads_fuel]. *)
Definition decode (s : string) : parsed value :=
  match scan_once (2 * String.length s + 2) (skip_ws s) with
  | Ok v rest =>
      match skip_ws rest with
      | EmptyString => Ok v EmptyString
      | _ => DecodeError
      end
  | e => e
  end.

(** [json.loads(s)]: [Some] value, or [None] for [JSONDecodeError]. *)
Definition loads (s : string) : option value :=
  match decode s with
  | Ok v _ => Some v
  | _ => None
  end.

(** [len(v)], [None] where Python raises [TypeError]. *)
Definition len (v : value) : option nat :=
  match v with
  | Obj members => Some (length members)
  | Arr items => Some (length items)
  | Str s => Some (String.length s)
  | _ => None
  end.

End Json.

(** ** [llm.py]: the response parsing of [LLMClient] *)

Module LLM.
Import PyStr.

(** [```json\s*([\s\S]*?)\s*```] *)
Definition json_block_pattern : Re.re :=
  Re.cat [ Re.lit "```json"; Re.Star true is_space;
           Re.Group 1 (Re.Star false Analyzer.any_char);
           Re.Star true is_space; Re.lit "```" ].

(** [---\s*File:\s*([\w\./\\-]+)\s*---\s*([\s\S]*?)(?=---\s*File:|$)] *)
Definition file_pattern : Re.re :=
  Re.cat [ Re.lit "---"; Re.Star true is_space; Re.lit "File:";
           Re.Star true is_space;
           Re.Group 1 (Re.plus (Analyzer.word_or "./\-"));
           Re.Star true is_space; Re.lit "---"; Re.Star true is_space;
           Re.Group 2 (Re.Star false Analyzer.any_char);
           Re.Ahead (Re.Alt (Re.cat [ Re.lit "---"; Re.Star true is_space; Re.lit "File:" ])
                            Re.Eol) ].

Definition _extract_files_manually (text : string) : dict string :=
  fold_left (fun files m =>
               let file_path := strip (Re.group m 1) in
               let content := strip (Re.group m 2) in
               dict_set files file_path content)
    (Re.finditer file_pattern text) [].

(** What a call of [_extract_modified_files] does: it returns a value or
    lets a [TypeError] through (the only exception its body can raise
    besides the [JSONDecodeError] it catches). *)
Inductive outcome : Type :=
| Returns (modified_files : Json.value)
| RaisesTypeError.

(** The dictionary of [_extract_files_manually] as a value. *)
Definition files_value (files : dict string) : Json.value :=
  Json.Obj (map (fun kv => (fst kv, Json.Str (snd kv))) files).

(** [json.loads(json_str)], the [len(modified_files)] of the log line,
    [return modified_files]; under [except json.JSONDecodeError], the
    manual extraction of the whole response. *)
Definition parse_or_fall_back (json_str response : string) : outcome :=
  match Json.loads json_str with
  | Some modified_files =>
      match Json.len modified_files with
      | Some _ => Returns modified_files
      | None => RaisesTypeError
      end
  | None => Returns (files_value (_extract_files_manually response))
  end.

Definition _extract_modified_files (response : string) : outcome :=
  match Re.search json_block_pattern response with
  | Some json_match => parse_or_fall_back (Re.group json_match 1) response
  | None => parse_or_fall_back response response
  end.

End LLM.

(** ** The vocabulary of the specification *)

Module Spec.
Import PyStr.

(** [t] appears as a substring of [s]. *)
Definition occurs_in (t s : string) : Prop :=
  exists before after, s = (before ++ t ++ after)%string.

Definition emit (cur : string) : list string :=
  match cur with
  | EmptyString => []
  | _ => [cur]
  end.

(** The word-tokens of a text, from left to right: its maximal runs of
    word characters.  [cur] is the run being read. *)
Fixpoint word_tokens_from (s cur : string) : list string :=
  match s with
  | EmptyString => emit cur
  | String c s' =>
      if is_word c then word_tokens_from s' (cur ++ String c EmptyString)%string
      else emit cur ++ word_tokens_from s' EmptyString
  end.

Definition word_tokens (s : string) : list string :=
  word_tokens_from s EmptyString.


(** [s.find(sub)]: the index of the first occurrence of [sub] in [s]. *)
Fixpoint find (s sub : string) : option nat :=
  if startswith s sub then Some 0
  else match s with
       | EmptyString => None
       | String _ s' => option_map S (find s' sub)
       end.

(** Whitespace only. *)
Fixpoint all_space (s : string) : bool :=
  match s with
  | EmptyString => true
  | String c s' => (is_space c && all_space s')%bool
  end.

(** A text that begins and ends with a character that is not whitespace
    and holds no backquote. *)
Definition starts_nonspace (s : string) : bool :=
  match s with
  | String c _ => negb (is_space c)
  | EmptyString => false
  end.
Fixpoint ends_nonspace (s : string) : bool :=
  match s with
  | EmptyString => false
  | String c EmptyString => negb (is_space c)
  | String _ s' => ends_nonspace s'
  end.
Fixpoint no_backquote (s : string) : bool :=
  match s with
  | EmptyString => true
  | String c s' => (negb (Ascii.eqb c "`") && no_backquote s')%bool
  end.

(** [x] lists [y] among its dependencies. *)
Definition edge (graph : dict (list string)) (x y : string) : Prop :=
  In y (Analyzer.edges graph x).

(** [y] is [x] or can be reached from it along edges. *)
Inductive reachable (graph : dict (list string)) (x : string) : string -> Prop :=
| reach_here : reachable graph x x
| reach_next y z : reachable graph x y -> edge graph y z -> reachable graph x z.

(** The text handed to the strict parser: the inner text of the first
    fenced block when there is one, the whole response otherwise. *)
Definition json_text (response : string) : string :=
  match Re.search LLM.json_block_pattern response with
  | Some json_match => Re.group json_match 1
  | None => response
  end.

End Spec.

(** ** The inputs of the examples *)

Module Inputs.
Import PyStr.

Definition tiny_corpus : list (string * string) := [("foo.tf", "x")].

Definition network_corpus : list (string * string) :=
  [ ("app/main.tf", q "module 'net' { source = '../network' }");
    ("network/outputs.tf", "# nothing here") ].

Definition self_referring_corpus : list (string * string) :=
  [ ("variables.tf", q "variable 'region' {} locals { r = var.region }") ].

Definition cyclic_graph : dict (list string) :=
  [ ("a.tf", ["b.tf"; "b.tf"]); ("b.tf", ["c.tf"; "a.tf"]); ("c.tf", ["a.tf"; "c.tf"]) ].


(** The two scenarios of the specification's section 8. *)
Definition two_file_corpus : list (string * string) :=
  [ ("main.tf", q "resource 'aws_instance' 'x' {}");
    ("variables.tf", q "variable 'region' {}") ].

Definition subnet_corpus : list (string * string) :=
  [ ("net.tf", q "resource 'aws_subnet' 'a' {}"); ("app.tf", q "resource 'aws_instance' 'x' {}") ].

Definition quoted_fence : string := q "{'a.tf': '```json x ```'}".

Definition two_files : string := q "{'a.tf': 'content-A', 'b.tf': 'content-B'}".
Definition two_files_mapping : Json.value :=
  Json.Obj [("a.tf", Json.Str "content-A"); ("b.tf", Json.Str "content-B")].

Definition two_blocks : string :=
  ("```json {} ```" ++ nl ++ "```json" ++ nl ++ two_files ++ nl ++ "```")%string.

Definition marked_sections : string :=
  ("--- File: a.tf ---" ++ nl ++ "HELLO" ++ nl ++ "--- File: b.tf ---" ++ nl ++ "WORLD")%string.

End Inputs.

(** ** Notions the proofs use *)

Module Aux.
Import PyStr Analyzer Spec.

(** A loop step that either leaves the running dictionary alone or
    stores an entry of [c] in it. *)
Definition adds_from (c : dict string) {X : Type} (l : list X)
    (f : dict string -> X -> dict string) : Prop :=
  forall r x, In x l ->
    f r x = r \/ exists k v, In (k, v) c /\ f r x = dict_set r k v.

(** A running result: entries of the corpus, under distinct keys. *)
Definition within (self : TerraformAnalyzer) (r : dict string) : Prop :=
  incl r (file_contents self) /\ NoDup (keys r).

(** What one call of the traversal owes its caller, from [visited]
    before to [visited'] after, with the list [result] it returns. *)
Record call_ok (graph : dict (list string)) (file_path : string)
    (visited result visited' : list string) : Prop := {
  ok_mono : incl visited visited';
  ok_self : In file_path visited';
  ok_once : NoDup visited -> NoDup visited';
  ok_reach : forall x, In x visited' -> In x visited \/ reachable graph file_path x;
  ok_closed : forall x y, In x visited' -> ~ In x visited -> edge graph x y -> In y visited';
  ok_result : forall y, In y result <->
                exists x, In x visited' /\ ~ In x visited /\ edge graph x y
}.

(** The same for the loop over the dependencies of one file. *)
Record loop_ok (graph : dict (list string)) (deps acc visited result visited' : list string)
  : Prop := {
  lp_mono : incl visited visited';
  lp_deps : forall d, In d deps -> In d visited';
  lp_once : NoDup visited -> NoDup visited';
  lp_reach : forall x, In x visited' ->
               In x visited \/ exists d, In d deps /\ reachable graph d x;
  lp_closed : forall x y, In x visited' -> ~ In x visited -> edge graph x y -> In y visited';
  lp_result : forall y, In y result <->
                In y acc \/ In y deps \/
                exists x, In x visited' /\ ~ In x visited /\ edge graph x y
}.

(** The edges one file contributes (lines 44-72). *)
Definition edges_of (contents : dict string) (file_path content : string) : list string :=
  flat_map (module_targets contents file_path) (_extract_module_sources content)
  ++ flat_map (variable_targets contents) (_extract_variable_references content).

(** The edges the entry [kv] of the corpus contributes to the file [f']. *)
Definition edges_at (contents : dict string) (f' : string) (kv : string * string)
  : list string :=
  if String.eqb (fst kv) f' then edges_of contents (fst kv) (snd kv) else [].

(** After the loading loop both dictionaries have the same keys and the
    graph has no edge yet. *)
Definition fresh (self : TerraformAnalyzer) : Prop :=
  forall f, dict_get (dependency_graph self) f
            = if dict_mem (file_contents self) f then Some [] else None.





(** The character before the position reached after [s]. *)
Fixpoint last_char (pv : option ascii) (s : string) : option ascii :=
  match s with
  | EmptyString => pv
  | String c s' => last_char (Some c) s'
  end.

(** The end of the block pattern: whitespace and the closing fence. *)
Definition closing : Re.state -> option Re.state :=
  fun st => Re.run (Re.Seq (Re.Star true is_space) (Re.Seq (Re.lit "```") Re.Eps)) st Some.

(** A parser that returns no more text than it was given. *)
Definition shrinks (f : string -> Json.parsed Json.value) : Prop :=
  forall s v rest, f s = Json.Ok v rest -> String.length rest <= String.length s.

End Aux.

(** ** [github_utils.py]: the URL handling of [GitHubRepo] *)

Module GitHub.
Import PyStr.

Definition not_slash (c : ascii) : bool := negb (Ascii.eqb c "/").
(** [.] without DOTALL *)
Definition not_newline (c : ascii) : bool := negb (Ascii.eqb c newline).

(** [(?:r)?] *)
Definition optional (r : Re.re) : Re.re := Re.Alt r Re.Eps.

(** [https://github\.com/([^/]+/[^/]+)(?:/tree/([^/]+)(?:/(.+))?)?],
    from the inside: [[^/]+/[^/]+], [/(.+)], [/tree/([^/]+)(?:/(.+))?]. *)
Definition repo_part : Re.re :=
  Re.cat [ Re.plus not_slash; Re.Chr "/"; Re.plus not_slash ].
Definition path_part : Re.re :=
  Re.cat [ Re.Chr "/"; Re.Group 3 (Re.plus not_newline) ].
Definition tree_part : Re.re :=
  Re.cat [ Re.lit "/tree/"; Re.Group 2 (Re.plus not_slash); optional path_part ].
Definition url_pattern : Re.re :=
  Re.cat [ Re.lit "https://github.com/"; Re.Group 1 repo_part; optional tree_part ].

(** [re.match(pattern, s)]: a match that starts at the first character. *)
Definition re_match (r : Re.re) (s : string) : option Re.match_obj :=
  Re.match_at r None 0 s.

(** [m.group(n)], [None] for a group that took no part in the match. *)
Fixpoint group_opt (gs : list (nat * string)) (n : nat) : option string :=
  match gs with
  | [] => None
  | (n', s) :: gs' => if Nat.eqb n' n then Some s else group_opt gs' n
  end.

(** The truth value of a string, and of a string or [None]. *)
Definition truthy (s : string) : bool := negb (String.eqb s EmptyString).
Definition truthy_opt (o : option string) : bool :=
  match o with
  | Some s => truthy s
  | None => false
  end.

(** [s.replace(old, new)] for a non-empty [old]: every occurrence, from
    left to right, without overlap; [skip] counts the characters of the
    occurrence just replaced that are still to pass. *)
Fixpoint replace_from (s old new : string) (skip : nat) {struct s} : string :=
  match skip with
  | S n =>
      match s with
      | String _ s' => replace_from s' old new n
      | EmptyString => EmptyString
      end
  | O =>
      if startswith s old
      then (new ++ match s with
                   | String _ s' => replace_from s' old new (String.length old - 1)
                   | EmptyString => EmptyString
                   end)%string
      else match s with
           | String c s' => String c (replace_from s' old new 0)
           | EmptyString => EmptyString
           end
  end.
Definition replace (s old new : string) : string := replace_from s old new 0.

(** The attributes of a [GitHubRepo] that the URL decides ([temp_dir] is
    [None] until [clone]); [repo_name] is set only when the URL matches. *)
Record GitHubRepo : Type := mk_repo {
  repo_url : string;
  token : option string;
  nested_path : option string;
  clone_url : string;
  branch : string;
  repo_name : option string;
  auth_url : string
}.

(** [self.clone_url.replace("https://github.com", f"https://{self.token}@github.com")] *)
Definition with_token (clone_url tok : string) : string :=
  replace clone_url "https://github.com" ("https://" ++ tok ++ "@github.com")%string.

Definition token_text (tok : option string) : string :=
  match tok with
  | Some t => t
  | None => EmptyString
  end.

(** [GitHubRepo(repo_url, token)]: [__init__] and [_parse_repo_url]. *)
Definition init (repo_url : string) (tok : option string) : GitHubRepo :=
  match re_match url_pattern repo_url with
  | Some m =>
      let repo_name := Re.group m 1 in
      let branch :=
        match group_opt (Re.m_groups m) 2 with
        | Some b => if truthy b then b else "main"
        | None => "main"
        end in
      let nested_path := group_opt (Re.m_groups m) 3 in
      let clone_url := ("https://github.com/" ++ repo_name)%string in
      let auth_url :=
        if truthy_opt tok then with_token clone_url (token_text tok) else clone_url in
      mk_repo repo_url tok nested_path clone_url branch (Some repo_name) auth_url
  | None =>
      let clone_url := repo_url in
      let auth_url :=
        if (truthy_opt tok && startswith clone_url "https://github.com")%bool
        then with_token clone_url (token_text tok)
        else clone_url in
      mk_repo repo_url tok None clone_url "main" None auth_url
  end.

End GitHub.

(** ** [terraform_enhancer.py] and [main.py]: configuration and file choice *)

Module Enhancer.
Import PyStr Analyzer.

(** Step 3 of [enhance_terraform_code] (lines 43-48): the files handed
    to the client, the whole corpus when the selector found none. *)
Definition files_for_llm (analyzer : TerraformAnalyzer) (prompt : string) : dict string :=
  let relevant_files := find_relevant_files analyzer prompt in
  match relevant_files with
  | [] => file_contents analyzer
  | _ => relevant_files
  end.

(** The two interfaces [update_terraform_code] chooses between. *)
Inductive api : Type := OpenAI | Anthropic.

(** An [LLMClient]: [__init__] keeps the key as it is given and
    lowercases the provider. *)
Record LLMClient : Type := mk_client {
  api_key : Json.value;
  provider : string
}.
Definition new_client (api_key : Json.value) (provider : string) : LLMClient :=
  mk_client api_key (lower provider).

(** The dispatch of [update_terraform_code] (lines 72-75). *)
Definition chosen_api (self : LLMClient) : api :=
  if String.eqb (provider self) "anthropic" then Anthropic else OpenAI.

(** [config.get(key, default)] *)
Definition config_get (config : dict Json.value) (key : string) (default : Json.value)
  : Json.value :=
  match dict_get config key with
  | Some v => v
  | None => default
  end.

(** [TerraformEnhancer(config)]: the client it creates (lines 19-21);
    [None] where [provider.lower()] raises, the provider being no string. *)
Definition new_enhancer (config : dict Json.value) : option LLMClient :=
  match config_get config "provider" (Json.Str "openai") with
  | Json.Str p => Some (new_client (config_get config "api_key" (Json.Str EmptyString)) p)
  | _ => None
  end.

End Enhancer.

Module Main.
Import PyStr.

(** [--provider]: [choices=["openai", "anthropic"]], [default="openai"]. *)
Inductive provider_choice : Type := openai | anthropic.
Definition provider_name (p : provider_choice) : string :=
  match p with
  | openai => "openai"
  | anthropic => "anthropic"
  end.

(** The namespace [parse_args] returns; [output] has the default
    [./output], the options without default are [None] when absent. *)
Record args : Type := mk_args {
  repo : string;
  prompt : string;
  output : string;
  api_key : option string;
  provider : provider_choice;
  github_token : option string;
  config : option string
}.

Definition set_if (cond : bool) (config : dict Json.value) (key value : string)
  : dict Json.value :=
  if cond then dict_set config key (Json.Str value) else config.

(** The overriding of the loaded configuration by the command line
    (lines 50-58); [loaded] is the dictionary read from the configuration
    file, empty when there is none. *)
Definition effective_config (loaded : dict Json.value) (a : args) : dict Json.value :=
  let config := loaded in
  let config :=
    set_if (GitHub.truthy_opt (api_key a)) config "api_key" (GitHub.token_text (api_key a)) in
  let config :=
    set_if (GitHub.truthy (provider_name (provider a))) config "provider"
      (provider_name (provider a)) in
  let config :=
    set_if (GitHub.truthy_opt (github_token a)) config "github_token"
      (GitHub.token_text (github_token a)) in
  set_if (GitHub.truthy (output a)) config "output_dir" (output a).

(** The check of lines 61-65: [Some 1] is [return 1], [None] goes on to
    create the enhancer. *)
Definition missing_api_key (loaded : dict Json.value) (a : args) : option nat :=
  if dict_mem (effective_config loaded a) "api_key" then None else Some 1.

End Main.

(** ** [llm.py]: the files in the message to the model *)

Module LLMPrompt.
Import PyStr.

(** One turn of the loop of [update_terraform_code] (lines 55-56):
    [files_content += f"\n\n--- File: {file_path} ---\n\n{content}"]. *)
Definition add_file (files_content : string) (kv : string * string) : string :=
  (files_content ++ nl ++ nl ++ "--- File: " ++ fst kv ++ " ---" ++ nl ++ nl ++ snd kv)%string.

Definition files_content (files_dict : dict string) : string :=
  fold_left add_file files_dict EmptyString.

End LLMPrompt.

(** ** Further notions of the statements below *)

Module Notions.
Import PyStr Analyzer Spec.

(** [p] can be reached from [f] along one edge or more. *)
Definition depends_on (graph : dict (list string)) (f p : string) : Prop :=
  exists x, reachable graph f x /\ edge graph x p.

(** The prompt names the VPC or the network (line 109). *)
Definition vpc_prompt (prompt : string) : bool :=
  existsb (fun vpc_term => contains (lower prompt) vpc_term) ["vpc"; "network"].

(** The file is taken by the first pass or by the VPC pass: one of the
    keywords of the prompt occurs in its lowercased text or path, or the
    prompt names the VPC and one of the VPC keywords does. *)
Definition directly_selected (prompt p content : string) : Prop :=
  matches_any (_extract_keywords_from_prompt prompt) p content = true
  \/ (vpc_prompt prompt = true /\ matches_any vpc_keywords p content = true).

(** The running result before the fallback. *)
Definition before_fallback (self : TerraformAnalyzer) (prompt : string) : dict string :=
  dependency_pass self
    (vpc_pass self prompt (keyword_pass self (_extract_keywords_from_prompt prompt))).

(** The entry a loop over the corpus takes, if it takes one. *)
Definition pick (cond : string * string -> bool) (kv : string * string)
  : option (string * string) :=
  if cond kv then Some kv else None.

(** Every character of [s] satisfies [p]. *)
Fixpoint all_chars (p : ascii -> bool) (s : string) : bool :=
  match s with
  | EmptyString => true
  | String c s' => (p c && all_chars p s')%bool
  end.






(** A run of [p] ends where [t] begins. *)
Definition stops (p : ascii -> bool) (t : string) : bool :=
  match t with
  | EmptyString => true
  | String c _ => negb (p c)
  end.

(** A part of a URL between two slashes; a path that stays on one line. *)
Definition segment (s : string) : bool :=
  (GitHub.truthy s && all_chars GitHub.not_slash s)%bool.

Definition one_line (s : string) : bool :=
  (GitHub.truthy s && all_chars GitHub.not_newline s)%bool.

End Notions.

(** ** Dictionaries: keys stay distinct, entries are only added *)

Section DictFacts.
Context {V : Type}.
Implicit Types (d : dict V) (k : string) (v : V).

Lemma dict_mem_true d k : dict_mem d k = true <-> In k (keys d).
Proof.
  unfold dict_mem. rewrite existsb_exists. split.
  - intros (x & Hx & E). apply String.eqb_eq in E. now subst.
  - intros H. exists k. split; [assumption | apply String.eqb_refl].
Qed.

Lemma dict_mem_false d k : dict_mem d k = false <-> ~ In k (keys d).
Proof.
  rewrite <- dict_mem_true. destruct (dict_mem d k); split; congruence.
Qed.

Lemma dict_set_keys d k v :
  keys (dict_set d k v) = if dict_mem d k then keys d else keys d ++ [k].
Proof.
  induction d as [|[k' v'] d IH]; simpl; [reflexivity|].
  unfold dict_mem in *. simpl.
  rewrite (String.eqb_sym k k').
  destruct (String.eqb_spec k' k) as [->|Hne]; simpl; [reflexivity|].
  rewrite IH. now destruct (existsb (String.eqb k) (keys d)).
Qed.

Lemma dict_set_NoDup d k v : NoDup (keys d) -> NoDup (keys (dict_set d k v)).
Proof.
  intros H. rewrite dict_set_keys.
  destruct (dict_mem d k) eqn:E; [assumption|].
  apply dict_mem_false in E.
  apply NoDup_app; [assumption | repeat constructor; intros [] | ].
  intros x Hx [<-|[]]. contradiction.
Qed.

Lemma dict_set_has d k v : In (k, v) (dict_set d k v).
Proof.
  induction d as [|[k' v'] d IH]; simpl; [now left|].
  destruct (String.eqb k' k); simpl; auto.
Qed.

Lemma dict_set_in d k v e : In e (dict_set d k v) -> e = (k, v) \/ In e d.
Proof.
  induction d as [|[k' v'] d IH]; simpl.
  - intros [<-|[]]. now left.
  - destruct (String.eqb k' k); simpl; intros [<-|H]; auto.
    destruct (IH H); auto.
Qed.

(** An entry stays when the key set afresh either is another key or
    carries the same value. *)
Lemma dict_set_keeps d k v e :
  In e d -> (fst e = k -> snd e = v) -> In e (dict_set d k v).
Proof.
  induction d as [|[k' v'] d IH]; simpl; [intros []|].
  intros [<-|H] Hv.
  - simpl in Hv. destruct (String.eqb_spec k' k) as [->|Hne]; simpl; [|now left].
    left. now rewrite Hv.
  - destruct (String.eqb k' k); simpl; auto.
Qed.

Lemma dict_set_length d k v : length d <= length (dict_set d k v).
Proof.
  induction d as [|[k' v'] d IH]; simpl; [lia|].
  destruct (String.eqb k' k); simpl; lia.
Qed.

Lemma dict_get_in d k v : dict_get d k = Some v -> In (k, v) d.
Proof.
  induction d as [|[k' v'] d IH]; simpl; [discriminate|].
  destruct (String.eqb_spec k' k) as [->|Hne].
  - intros [= ->]. now left.
  - auto.
Qed.

Lemma in_keys d k v : In (k, v) d -> In k (keys d).
Proof. intros H. apply (in_map fst) in H. exact H. Qed.

(** With distinct keys a key has one value. *)
Lemma NoDup_keys_functional d k v v' :
  NoDup (keys d) -> In (k, v) d -> In (k, v') d -> v = v'.
Proof.
  induction d as [|[k0 v0] d IH]; simpl; [intros _ []|].
  intros Hnd. inversion Hnd as [|? ? Hnot Hnd']; subst.
  intros [E1|H1] [E2|H2].
  - congruence.
  - inversion E1; subst. elim Hnot. eapply in_keys; eassumption.
  - inversion E2; subst. elim Hnot. eapply in_keys; eassumption.
  - eauto.
Qed.

End DictFacts.

(** A loop that, at each step, either leaves the running dictionary alone
    or stores an entry of [c] in it. *)
Section Growth.
Variable c : dict string.
Hypothesis c_keys : NoDup (keys c).

Lemma set_grows r k v :
  incl r c -> In (k, v) c -> incl r (dict_set r k v) /\ incl (dict_set r k v) c.
Proof.
  intros Hr Hkv. split.
  - intros [k' v'] He. apply dict_set_keeps; [assumption|].
    simpl. intros ->. eapply NoDup_keys_functional; eauto.
  - intros e He. destruct (dict_set_in _ _ _ _ He) as [->|]; auto.
Qed.

Lemma fold_grows {X : Type} (f : dict string -> X -> dict string) (l : list X) :
  Aux.adds_from c l f ->
  forall r, incl r c -> NoDup (keys r) ->
    incl r (fold_left f l r) /\ incl (fold_left f l r) c
    /\ NoDup (keys (fold_left f l r)).
Proof.
  induction l as [|x l IH]; intros Hf r Hr Hnd; simpl.
  - repeat split; auto using incl_refl.
  - assert (Hl : Aux.adds_from c l f) by (intros r' x' Hx'; apply Hf; now right).
    destruct (Hf r x (or_introl eq_refl)) as [E|(k & v & Hkv & E)]; rewrite E.
    + now apply IH.
    + destruct (set_grows r k v Hr Hkv) as [H1 H2].
      destruct (IH Hl (dict_set r k v) H2 (dict_set_NoDup _ _ _ Hnd)) as (H3 & H4 & H5).
      repeat split; auto. eapply incl_tran; eassumption.
Qed.
End Growth.

(** ** The selector: every pass adds entries of the (file_contents self) *)

Module SelectorFacts.
Import Analyzer Aux.

Lemma entry_eta (kv : string * string) : (fst kv, snd kv) = kv.
Proof. now destruct kv. Qed.

(** The loader leaves the keys of [file_contents] pairwise distinct and
    gives [dependency_graph] the same keys. *)
Lemma load_keys (files : list (string * string)) (self : TerraformAnalyzer) :
  NoDup (keys (file_contents self)) ->
  NoDup (keys (file_contents
    (fold_left (fun self f =>
                  mk_analyzer (dict_set (file_contents self) (fst f) (snd f))
                              (dict_set (dependency_graph self) (fst f) []))
       files self))).
Proof.
  revert self. induction files as [|f files IH]; intros self H; simpl; [assumption|].
  apply IH. simpl. now apply dict_set_NoDup.
Qed.

Lemma init_keys files : NoDup (keys (file_contents (init files))).
Proof.
  unfold init, _load_terraform_files, _build_dependency_graph. simpl.
  apply load_keys. constructor.
Qed.

Section Passes.
Variable self : TerraformAnalyzer.
Hypothesis corpus_keys : NoDup (keys (file_contents self)).

Lemma keyword_pass_within keywords : within self (keyword_pass self keywords).
Proof.
  unfold keyword_pass.
  destruct (fold_grows (file_contents self) corpus_keys
              (fun r kv => if matches_any keywords (fst kv) (snd kv)
                           then dict_set r (fst kv) (snd kv) else r)
              (file_contents self)) with (r := @nil (string * string)) as (_ & H2 & H3).
  - intros r kv Hin. destruct (matches_any keywords (fst kv) (snd kv)); [right|now left].
    exists (fst kv), (snd kv). now rewrite entry_eta.
  - intros e [].
  - constructor.
  - split; assumption.
Qed.

Lemma vpc_pass_grows prompt r :
  within self r -> incl r (vpc_pass self prompt r) /\ within self (vpc_pass self prompt r).
Proof.
  intros [Hr Hnd]. unfold vpc_pass.
  destruct (existsb _ _); [|repeat split; auto using incl_refl].
  destruct (fold_grows (file_contents self) corpus_keys
              (fun r kv => if (negb (dict_mem r (fst kv))
                               && matches_any vpc_keywords (fst kv) (snd kv))%bool
                           then dict_set r (fst kv) (snd kv) else r)
              (file_contents self)) with (r := r) as (H1 & H2 & H3); auto.
  - intros r' kv Hin. destruct (_ && _)%bool; [right|now left].
    exists (fst kv), (snd kv). now rewrite entry_eta.
  - repeat split; assumption.
Qed.

Lemma dependency_files_within r : within self (dependency_files_of self r).
Proof.
  unfold dependency_files_of.
  assert (G : forall (paths : list string) d, within self d ->
            within self (fold_left (fun dependency_files file_path =>
              fold_left (fun dependency_files dep =>
                if negb (dict_mem r dep)
                then match dict_get (file_contents self) dep with
                     | Some content => dict_set dependency_files dep content
                     | None => dependency_files
                     end
                else dependency_files)
                (_find_all_dependencies self file_path) dependency_files)
              paths d)).
  { induction paths as [|p paths IH]; intros d Hd; simpl; [assumption|].
    apply IH. destruct Hd as [Hd Hnd].
    destruct (fold_grows (file_contents self) corpus_keys
                (fun dependency_files dep =>
                   if negb (dict_mem r dep)
                   then match dict_get (file_contents self) dep with
                        | Some content => dict_set dependency_files dep content
                        | None => dependency_files
                        end
                   else dependency_files)
                (_find_all_dependencies self p)) with (r := d) as (_ & H2 & H3); auto.
    - intros d' dep _. destruct (negb _); [|now left].
      destruct (dict_get (file_contents self) dep) as [content|] eqn:E; [right|now left].
      exists dep, content. split; [now apply dict_get_in | reflexivity].
    - split; assumption. }
  apply G. split; [intros e [] | constructor].
Qed.

Lemma dependency_pass_grows r :
  within self r -> incl r (dependency_pass self r) /\ within self (dependency_pass self r).
Proof.
  intros [Hr Hnd]. unfold dependency_pass, dict_update.
  destruct (dependency_files_within r) as [Hd _].
  destruct (fold_grows (file_contents self) corpus_keys
              (fun acc kv => dict_set acc (fst kv) (snd kv))
              (dependency_files_of self r)) with (r := r) as (H1 & H2 & H3); auto.
  - intros acc kv Hin. right. exists (fst kv), (snd kv).
    rewrite entry_eta. split; [now apply Hd | reflexivity].
  - repeat split; assumption.
Qed.

Lemma fallback_pass_grows r :
  within self r -> incl r (fallback_pass self r) /\ within self (fallback_pass self r).
Proof.
  intros [Hr Hnd]. unfold fallback_pass.
  destruct (Nat.ltb _ _); [|repeat split; auto using incl_refl].
  destruct (fold_grows (file_contents self) corpus_keys
              (fun r kv => if (negb (dict_mem r (fst kv)) && important (fst kv))%bool
                           then dict_set r (fst kv) (snd kv) else r)
              (file_contents self)) with (r := r) as (H1 & H2 & H3); auto.
  - intros r' kv Hin. destruct (_ && _)%bool; [right|now left].
    exists (fst kv), (snd kv). now rewrite entry_eta.
  - repeat split; assumption.
Qed.

(** The fallback loop leaves every important file of the part of the
    (file_contents self) it has walked in the running dictionary. *)
Lemma fallback_loop_covers (l : list (string * string)) :
  forall r,
    let r' := fold_left (fun r kv =>
                if (negb (dict_mem r (fst kv)) && important (fst kv))%bool
                then dict_set r (fst kv) (snd kv) else r) l r in
    incl (keys r) (keys r') /\
    forall kv, In kv l -> important (fst kv) = true -> In (fst kv) (keys r').
Proof.
  induction l as [|x l IH]; intros r; simpl.
  - split; [apply incl_refl | intros kv []].
  - set (r1 := if (negb (dict_mem r (fst x)) && important (fst x))%bool
               then dict_set r (fst x) (snd x) else r).
    destruct (IH r1) as [Hinc Hcov].
    assert (Hr1 : incl (keys r) (keys r1)).
    { unfold r1. destruct (_ && _)%bool; [|apply incl_refl].
      rewrite dict_set_keys. destruct (dict_mem r (fst x)); [apply incl_refl|].
      apply incl_appl, incl_refl. }
    split; [eapply incl_tran; eassumption|].
    intros kv [->|Hin] Himp; [|now apply Hcov].
    apply Hinc. unfold r1. rewrite Himp, andb_true_r.
    destruct (dict_mem r (fst kv)) eqn:E; simpl.
    + now apply dict_mem_true.
    + eapply in_keys. apply dict_set_has.
Qed.

Lemma important_files_bound r :
  within self r ->
  Nat.min 3 (length (filter important (keys (file_contents self)))) <= length (fallback_pass self r).
Proof.
  intros [Hr Hnd]. destruct (fallback_pass_grows r (conj Hr Hnd)) as (_ & _ & Hnd').
  revert Hnd'. unfold fallback_pass.
  destruct (Nat.ltb_spec (length r) 3) as [Hlt|Hge]; [|lia].
  intros Hnd'.
  destruct (fallback_loop_covers (file_contents self) r) as [_ Hcov].
  match type of Hnd' with NoDup (keys ?x) => set (r' := x) in * end.
  assert (Hinc : incl (filter important (keys (file_contents self))) (keys r')).
  { intros k Hk. apply filter_In in Hk. destruct Hk as [Hk Himp].
    unfold keys in Hk. apply in_map_iff in Hk. destruct Hk as (kv & <- & Hkv).
    now apply Hcov. }
  apply NoDup_incl_length in Hinc.
  - unfold keys in Hinc at 2. rewrite length_map in Hinc. lia.
  - apply NoDup_filter. exact corpus_keys.
Qed.

End Passes.

End SelectorFacts.

(** ** The traversal of the dependency graph *)

Module TraversalFacts.
Import Analyzer Spec Aux.

Lemma in_list_true w ws : in_list w ws = true <-> In w ws.
Proof.
  unfold in_list. rewrite existsb_exists. split.
  - intros (x & Hx & E). apply String.eqb_eq in E. now subst.
  - intros H. exists w. split; [assumption | apply String.eqb_refl].
Qed.

Lemma in_list_false w ws : in_list w ws = false <-> ~ In w ws.
Proof. rewrite <- in_list_true. destruct (in_list w ws); split; congruence. Qed.

Section Graph.
Variable graph : dict (list string).

Lemma reachable_from_edge x y z : edge graph x y -> reachable graph y z -> reachable graph x z.
Proof.
  intros Hxy Hyz. induction Hyz as [|u w _ IH Huw].
  - eapply reach_next; [apply reach_here | exact Hxy].
  - eapply reach_next; eassumption.
Qed.

Lemma loop_sound (call : string -> list string -> option (list string * list string)) :
  (forall fp v r v', call fp v = Some (r, v') -> call_ok graph fp v r v') ->
  forall deps acc v r v',
    dependencies_loop call deps acc v = Some (r, v') -> loop_ok graph deps acc v r v'.
Proof.
  intros Hcall. induction deps as [|dep deps IH]; intros acc v r v'; simpl.
  - intros [= <- <-]. constructor; auto using incl_refl.
    + intros d [].
    + intros x y Hx Hn. contradiction.
    + intros y. rewrite nodup_In. split; [auto|].
      intros [H|[[]|(x & Hx & Hn & _)]]; [assumption | contradiction].
  - destruct (call dep v) as [[sub v2]|] eqn:E; [|discriminate].
    intros Hloop. apply Hcall in E. apply IH in Hloop.
    destruct E as [c1 c2 c3 c4 c5 c6]. destruct Hloop as [l1 l2 l3 l4 l5 l6].
    constructor.
    + eapply incl_tran; eassumption.
    + intros d [<-|Hd]; auto.
    + auto.
    + intros x Hx. destruct (l4 x Hx) as [H2|(d & Hd & Hr)].
      * destruct (c4 x H2) as [H1|Hr]; [now left|].
        right. exists dep. split; [now left | assumption].
      * right. exists d. split; [now right | assumption].
    + intros x y Hx Hn He.
      destruct (in_dec string_dec x v2) as [H2|H2]; eauto.
    + intros y. rewrite l6, in_app_iff. simpl. rewrite c6. split.
      * intros [[H|[<-|(x & Hx & Hn & He)]]|[H|(x & Hx & Hn & He)]].
        -- now left.
        -- right. left. now left.
        -- right. right. exists x. auto.
        -- right. left. now right.
        -- right. right. exists x. split; [assumption|]. split; [|assumption].
           intros H1. apply Hn. auto.
      * intros [H|[[<-|H]|(x & Hx & Hn & He)]].
        -- left. now left.
        -- left. right. now left.
        -- right. now left.
        -- destruct (in_dec string_dec x v2) as [H2|H2].
           ++ left. right. right. exists x. auto.
           ++ right. right. exists x. auto.
Qed.

Lemma call_sound fuel :
  forall fp v r v',
    find_all_dependencies_rec fuel graph fp v = Some (r, v') -> call_ok graph fp v r v'.
Proof.
  induction fuel as [|fuel IH]; intros fp v r v'; simpl; [discriminate|].
  destruct (in_list fp v) eqn:E.
  - apply in_list_true in E. intros [= <- <-].
    constructor; auto using incl_refl.
    + intros x y Hx Hn. contradiction.
    + intros y. split; [intros [] | intros (x & Hx & Hn & _); contradiction].
  - apply in_list_false in E. intros Hloop.
    apply (loop_sound _ IH) in Hloop. destruct Hloop as [l1 l2 l3 l4 l5 l6].
    constructor.
    + intros x Hx. apply l1. now right.
    + apply l1. now left.
    + intros Hnd. apply l3. now constructor.
    + intros x Hx. destruct (l4 x Hx) as [[<-|H]|(d & Hd & Hr)].
      * right. apply reach_here.
      * now left.
      * right. eapply reachable_from_edge; eassumption.
    + intros x y Hx Hn He. destruct (string_dec fp x) as [<-|Hne].
      * apply l2. exact He.
      * eapply l5; eauto. intros [|]; contradiction.
    + intros y. rewrite l6. split.
      * intros [[]|[H|(x & Hx & Hn & He)]].
        -- exists fp. repeat split; auto. apply l1. now left.
        -- exists x. repeat split; auto. intros H. apply Hn. now right.
      * intros (x & Hx & Hn & He). destruct (string_dec fp x) as [<-|Hne].
        -- right. now left.
        -- right. right. exists x. repeat split; auto. intros [|]; contradiction.
Qed.

(** Termination: the recursion ends before the fuel does, as long as
    the fuel exceeds the number of nodes still to visit. *)
Section Fuel.
Variable universe : list string.
Hypothesis universe_closed : forall x y, In x universe -> edge graph x y -> In y universe.

Lemma reachable_in_universe x y : In x universe -> reachable graph x y -> In y universe.
Proof. intros Hx Hr. induction Hr; eauto. Qed.

Lemma visited_bound v : NoDup v -> incl v universe -> length v <= length universe.
Proof. intros. now apply NoDup_incl_length. Qed.

Lemma loop_returns (call : string -> list string -> option (list string * list string)) n :
  (forall fp v r v', call fp v = Some (r, v') -> call_ok graph fp v r v') ->
  (forall fp v, In fp universe -> NoDup v -> incl v universe ->
                length universe < length v + n -> exists r v', call fp v = Some (r, v')) ->
  forall deps acc v,
    incl deps universe -> NoDup v -> incl v universe ->
    length universe < length v + n ->
    exists r v', dependencies_loop call deps acc v = Some (r, v').
Proof.
  intros Hsound Hcall. induction deps as [|dep deps IH]; intros acc v Hd Hnd Hv Hn; simpl.
  - eauto.
  - assert (Hdep : In dep universe) by (apply Hd; now left).
    destruct (Hcall dep v Hdep Hnd Hv Hn) as (sub & v2 & E). rewrite E.
    apply Hsound in E. destruct E as [c1 c2 c3 c4 c5 c6].
    assert (Hv2 : incl v2 universe).
    { intros x Hx. destruct (c4 x Hx); auto. eapply reachable_in_universe; eauto. }
    apply IH; auto.
    + intros x Hx. apply Hd. now right.
    + assert (length v <= length v2) by (apply NoDup_incl_length; auto). lia.
Qed.

Lemma call_returns fuel :
  forall fp v, In fp universe -> NoDup v -> incl v universe ->
    length universe < length v + fuel ->
    exists r v', find_all_dependencies_rec fuel graph fp v = Some (r, v').
Proof.
  induction fuel as [|fuel IH]; intros fp v Hfp Hnd Hv Hn.
  - pose proof (visited_bound v Hnd Hv). lia.
  - simpl. destruct (in_list fp v) eqn:E; [eauto|].
    apply in_list_false in E.
    apply (loop_returns _ fuel (call_sound fuel) IH).
    + intros y Hy. eapply universe_closed; eassumption.
    + now constructor.
    + intros x [<-|Hx]; auto.
    + simpl. lia.
Qed.
End Fuel.

Lemma edge_in_nodes x y : edge graph x y -> In y (graph_nodes graph).
Proof.
  unfold edge, edges, graph_nodes. destruct (dict_get graph x) as [deps|] eqn:E; [|intros []].
  intros Hy. apply dict_get_in in E. apply in_or_app. right.
  apply in_concat. exists deps. split; [|assumption].
  apply in_map_iff. exists (x, deps). auto.
Qed.

Lemma top_call_returns fp :
  exists r v', find_all_dependencies_rec (2 + length (graph_nodes graph)) graph fp []
               = Some (r, v').
Proof.
  apply (call_returns (fp :: graph_nodes graph)).
  - intros x y _ He. right. eapply edge_in_nodes; eassumption.
  - now left.
  - constructor.
  - intros x [].
  - simpl. lia.
Qed.

End Graph.
End TraversalFacts.

(** ** The dependency graph the constructor builds *)

Module GraphFacts.
Import Analyzer Spec Aux.

Section MoreDict.
Context {V : Type}.
Implicit Types (d : dict V) (k : string) (v : V).

Lemma dict_get_set d k v k' :
  dict_get (dict_set d k v) k' = if String.eqb k k' then Some v else dict_get d k'.
Proof.
  induction d as [|[k0 v0] d IH]; simpl.
  - reflexivity.
  - destruct (String.eqb_spec k0 k) as [->|Hne]; simpl.
    + destruct (String.eqb k k'); reflexivity.
    + rewrite IH. destruct (String.eqb_spec k0 k') as [->|Hne'].
      * destruct (String.eqb_spec k k'); [congruence | reflexivity].
      * reflexivity.
Qed.

Lemma dict_mem_set d k v k' :
  dict_mem (dict_set d k v) k' = (String.eqb k k' || dict_mem d k')%bool.
Proof.
  destruct (dict_mem (dict_set d k v) k') eqn:E.
  - apply dict_mem_true in E. rewrite dict_set_keys in E. symmetry.
    apply orb_true_iff. destruct (dict_mem d k) eqn:Ek.
    + right. now apply dict_mem_true.
    + apply in_app_iff in E. destruct E as [E|[<-|[]]].
      * right. now apply dict_mem_true.
      * left. apply String.eqb_refl.
  - apply dict_mem_false in E. symmetry. apply orb_false_iff. split.
    + destruct (String.eqb_spec k k') as [<-|]; [|reflexivity].
      elim E. eapply in_keys. apply dict_set_has.
    + apply dict_mem_false. intros H. apply E. rewrite dict_set_keys.
      destruct (dict_mem d k); [assumption | apply in_or_app; now left].
Qed.

Lemma dict_get_some d k : In k (keys d) -> exists v, dict_get d k = Some v.
Proof.
  induction d as [|[k0 v0] d IH]; simpl; [intros []|].
  destruct (String.eqb_spec k0 k) as [->|Hne]; [eauto|].
  intros [E|H]; [congruence | auto].
Qed.

Lemma dict_get_none d k : ~ In k (keys d) -> dict_get d k = None.
Proof.
  induction d as [|[k0 v0] d IH]; simpl; [reflexivity|].
  intros H. destruct (String.eqb_spec k0 k) as [->|Hne]; [elim H; now left|].
  apply IH. intros H'. apply H. now right.
Qed.
End MoreDict.

(** Loops that only store entries: the keys of the running dictionary
    stay, and a key stored at some step is there at the end. *)
Section Keys.
Context {X : Type}.
Variable f : dict string -> X -> dict string.
Hypothesis f_keeps : forall r x, incl (keys r) (keys (f r x)).


End Keys.


(** *** Appending edges *)

Lemma graph_append_get graph f x f' :
  dict_get (graph_append graph f x) f'
  = if String.eqb f f' then option_map (fun l => l ++ [x]) (dict_get graph f')
    else dict_get graph f'.
Proof.
  induction graph as [|[k deps] graph IH]; simpl.
  - now destruct (String.eqb f f').
  - destruct (String.eqb_spec k f) as [->|Hne]; simpl.
    + destruct (String.eqb f f'); reflexivity.
    + rewrite IH. destruct (String.eqb_spec k f') as [->|Hne'].
      * destruct (String.eqb_spec f f'); [congruence | reflexivity].
      * reflexivity.
Qed.

Lemma option_map_app (o : option (list string)) (a b : list string) :
  option_map (fun l => l ++ b) (option_map (fun l => l ++ a) o)
  = option_map (fun l => l ++ a ++ b) o.
Proof. destruct o; simpl; [now rewrite <- app_assoc | reflexivity]. Qed.

Lemma option_map_nil (o : option (list string)) : option_map (fun l => l ++ []) o = o.
Proof. destruct o; simpl; [now rewrite app_nil_r | reflexivity]. Qed.

(** A loop that appends, for each [x] of [xs], the edges [targets x] of
    one file. *)
Lemma fold_add_edges_get {X : Type} (targets : X -> list string) f f' (xs : list X) :
  forall graph,
    dict_get (fold_left (fun g x => add_edges g f (targets x)) xs graph) f'
    = if String.eqb f f'
      then option_map (fun l => l ++ flat_map targets xs) (dict_get graph f')
      else dict_get graph f'.
Proof.
  assert (A : forall ts graph,
             dict_get (add_edges graph f ts) f'
             = if String.eqb f f' then option_map (fun l => l ++ ts) (dict_get graph f')
               else dict_get graph f').
  { unfold add_edges. induction ts as [|t ts IH]; intros graph; simpl.
    - destruct (String.eqb f f'); [now rewrite option_map_nil | reflexivity].
    - rewrite IH, graph_append_get. destruct (String.eqb f f'); [|reflexivity].
      now rewrite option_map_app. }
  induction xs as [|x xs IH]; intros graph; simpl.
  - destruct (String.eqb f f'); [now rewrite option_map_nil | reflexivity].
  - rewrite IH, A. destruct (String.eqb f f'); [|reflexivity].
    now rewrite option_map_app.
Qed.

Lemma file_edges_get contents graph f content f' :
  dict_get (file_edges contents graph f content) f'
  = if String.eqb f f'
    then option_map (fun l => l ++ edges_of contents f content) (dict_get graph f')
    else dict_get graph f'.
Proof.
  unfold file_edges, edges_of.
  rewrite (fold_add_edges_get (variable_targets contents)).
  rewrite (fold_add_edges_get (module_targets contents f)).
  destruct (String.eqb f f'); [|reflexivity]. now rewrite option_map_app.
Qed.

Lemma build_get contents f' (l : list (string * string)) :
  forall graph,
    dict_get (fold_left (fun g kv => file_edges contents g (fst kv) (snd kv)) l graph) f'
    = option_map (fun d => d ++ flat_map (edges_at contents f') l) (dict_get graph f').
Proof.
  induction l as [|kv l IH]; intros graph; simpl.
  - now rewrite option_map_nil.
  - rewrite IH, file_edges_get. unfold edges_at at 2.
    destruct (String.eqb (fst kv) f'); simpl.
    + now rewrite option_map_app.
    + reflexivity.
Qed.

Lemma load_same_keys (files : list (string * string)) :
  forall self, fresh self ->
    fresh (fold_left (fun self f =>
                        mk_analyzer (dict_set (file_contents self) (fst f) (snd f))
                                    (dict_set (dependency_graph self) (fst f) []))
             files self).
Proof.
  induction files as [|x files IH]; intros self H; simpl; [assumption|].
  apply IH. intros f. simpl. rewrite dict_get_set, dict_mem_set, H.
  now destruct (String.eqb (fst x) f).
Qed.

Lemma edges_at_absent contents f (l : dict string) :
  ~ In f (keys l) -> flat_map (edges_at contents f) l = [].
Proof.
  induction l as [|kv l IH]; simpl; [reflexivity|].
  intros H. unfold edges_at at 1.
  destruct (String.eqb_spec (fst kv) f) as [E|_]; [elim H; now left|].
  simpl. apply IH. intros H'. apply H. now right.
Qed.

(** The edges of a file in the graph of [init]: those its text
    contributes. *)
Lemma init_edges files f :
  let self := init files in
  edges (dependency_graph self) f
  = flat_map (edges_at (file_contents self) f) (file_contents self).
Proof.
  unfold init, _load_terraform_files, _build_dependency_graph, edges.
  set (loaded := fold_left _ files _).
  assert (Hfresh : fresh loaded).
  { apply load_same_keys. intros f'. reflexivity. }
  simpl. rewrite build_get, Hfresh.
  destruct (dict_mem (file_contents loaded) f) eqn:E; simpl; [reflexivity|].
  apply dict_mem_false in E. symmetry. now apply edges_at_absent.
Qed.

Lemma init_edge_iff files f d :
  let self := init files in
  In d (edges (dependency_graph self) f) <->
  exists content, In (f, content) (file_contents self)
                  /\ In d (edges_of (file_contents self) f content).
Proof.
  intros self. unfold self. rewrite init_edges. fold self.
  rewrite in_flat_map. unfold edges_at. split.
  - intros ([k content] & Hin & Hd). simpl in Hd.
    destruct (String.eqb_spec k f) as [->|]; [eauto | destruct Hd].
  - intros (content & Hin & Hd). exists (f, content). simpl.
    now rewrite String.eqb_refl.
Qed.

End GraphFacts.

(** ** Strings *)

Module StrFacts.
Import PyStr.

Lemma append_assoc (a b c : string) : ((a ++ b) ++ c = a ++ (b ++ c))%string.
Proof. induction a; simpl; congruence. Qed.

Lemma append_nil_r (s : string) : (s ++ EmptyString)%string = s.
Proof. induction s; simpl; congruence. Qed.

Lemma append_length (a b : string) :
  String.length (a ++ b) = String.length a + String.length b.
Proof. induction a; simpl; congruence. Qed.

Lemma startswith_iff s p : startswith s p = true <-> exists t, s = (p ++ t)%string.
Proof.
  revert s. induction p as [|b p IH]; intros s; simpl.
  - split; [intros _; now exists s | intros _; now destruct s].
  - destruct s as [|a s]; simpl.
    + split; [discriminate | intros (t & E); discriminate].
    + rewrite andb_true_iff, IH. split.
      * intros (E & t & ->). apply Ascii.eqb_eq in E. subst. now exists t.
      * intros (t & E). inversion E; subst. split; [apply Ascii.eqb_refl | now exists t].
Qed.

Lemma contains_iff s t : contains s t = true <-> Spec.occurs_in t s.
Proof.
  unfold Spec.occurs_in. induction s as [|a s IH].
  - change (contains EmptyString t) with (startswith EmptyString t || false)%bool.
    rewrite orb_false_r, startswith_iff. split.
    + intros (u & E). exists EmptyString, u. exact E.
    + intros (pre & post & E). destruct pre; simpl in E; [now exists post | discriminate].
  - change (contains (String a s) t) with (startswith (String a s) t || contains s t)%bool.
    rewrite orb_true_iff, startswith_iff, IH. split.
    + intros [(u & E)|(pre & post & ->)].
      * exists EmptyString, u. exact E.
      * now exists (String a pre), post.
    + intros (pre & post & E). destruct pre as [|b pre]; simpl in E.
      * left. now exists post.
      * right. inversion E; subst. now exists pre, post.
Qed.

Lemma startswith_app s p p' : startswith s (p ++ p')%string = true -> startswith s p = true.
Proof.
  rewrite !startswith_iff. intros (t & ->). exists (p' ++ t)%string.
  now rewrite append_assoc.
Qed.

End StrFacts.

(** ** The matcher, one construct at a time *)

Module ReFacts.
Import Re.

Lemma run_eps st k : run Eps st k = k st.
Proof. reflexivity. Qed.

Lemma run_seq r1 r2 st k : run (Seq r1 r2) st k = run r1 st (fun st' => run r2 st' k).
Proof. reflexivity. Qed.

Lemma run_chr c pv i a s gs k :
  run (Chr c) (mk_state pv i (String a s) gs) k
  = if Ascii.eqb a c then k (mk_state (Some a) (S i) s gs) else None.
Proof. reflexivity. Qed.

Lemma run_chr_end c pv i gs k : run (Chr c) (mk_state pv i EmptyString gs) k = None.
Proof. reflexivity. Qed.

Lemma run_cls p pv i a s gs k :
  run (Cls p) (mk_state pv i (String a s) gs) k
  = if p a then k (mk_state (Some a) (S i) s gs) else None.
Proof. reflexivity. Qed.

Lemma run_cls_end p pv i gs k : run (Cls p) (mk_state pv i EmptyString gs) k = None.
Proof. reflexivity. Qed.

Lemma run_greedy p pv i s gs k :
  run (Star true p) (mk_state pv i s gs) k = star_greedy p k gs pv i s.
Proof. reflexivity. Qed.

Lemma run_lazy p pv i s gs k :
  run (Star false p) (mk_state pv i s gs) k = star_lazy p k gs pv i s.
Proof. reflexivity. Qed.


Lemma run_group n r st k :
  run (Group n r) st k
  = run r st (fun st' =>
      k (mk_state (prev st') (pos st') (rest st')
           ((n, substring 0 (pos st' - pos st) (rest st)) :: groups st'))).
Proof. reflexivity. Qed.

Lemma finditer_step r pv i a s :
  finditer_from r pv i (String a s) 0
  = match match_at r pv i (String a s) with
    | Some m => m :: finditer_from r (Some a) (S i) s (m_end m - i - 1)
    | None => finditer_from r (Some a) (S i) s 0
    end.
Proof. reflexivity. Qed.


Lemma finditer_end r pv i :
  finditer_from r pv i EmptyString 0
  = match match_at r pv i EmptyString with Some m => [m] | None => [] end.
Proof. reflexivity. Qed.

End ReFacts.


(** ** The word pattern and the word-tokens of a text *)

Module WordFacts.
Import PyStr Analyzer Spec Aux.


















End WordFacts.

(** ** [json.loads]: the fuel of the model never runs out *)

Module JsonFacts.
Import PyStr Json Aux.

Lemma skip_ws_length s : String.length (skip_ws s) <= String.length s.
Proof.
  induction s as [|c s IH]; simpl; [lia|].
  destruct (is_ws c); simpl; lia.
Qed.

Lemma drop_length n s : String.length (drop n s) <= String.length s.
Proof.
  revert s. induction n as [|n IH]; intros s; destruct s as [|c s]; simpl; try lia.
  specialize (IH s). lia.
Qed.

Lemma cons_char_some c r str rest :
  cons_char c r = Some (str, rest) ->
  exists str', r = Some (str', rest).
Proof.
  destruct r as [[str' rest']|]; simpl; [|discriminate].
  intros [= <- <-]. eauto.
Qed.

(** A string literal ends after its closing quote: the text left is
    shorter. *)
Lemma scanstring_length n : forall s str rest,
  String.length s <= n -> scanstring s = Some (str, rest) ->
  String.length rest < String.length s.
Proof.
  induction n as [|n IH]; intros s str rest Hn.
  - destruct s; simpl in Hn; [simpl; discriminate | lia].
  - destruct s as [|c s1]; [simpl; discriminate|].
    assert (Rec : forall t str', String.length t <= n -> forall c',
               cons_char c' (scanstring t) = Some (str', rest) ->
               String.length rest < String.length t).
    { intros t str' Ht c' H. apply cons_char_some in H. destruct H as (u & H).
      eapply IH; eassumption. }
    cbn [scanstring]. simpl in Hn.
    destruct (Ascii.eqb c dquote).
    { intros [= <- <-]. simpl. lia. }
    destruct (Ascii.eqb c "\").
    2:{ destruct (N.ltb (code c) 32); [discriminate|].
        intros H. apply Rec in H; [simpl; lia | lia]. }
    destruct s1 as [|esc s2]; [discriminate|].
    destruct (Ascii.eqb esc "u").
    2:{ destruct (backslash_escape esc); [|discriminate].
        intros H. apply Rec in H; simpl in *; lia. }
    destruct s2 as [|h1 [|h2 [|h3 [|h4 s3]]]]; try discriminate.
    destruct (hex4 h1 h2 h3 h4) as [uni|]; [|discriminate].
    simpl in Hn.
    assert (R3 : forall str' c', cons_char c' (scanstring s3) = Some (str', rest) ->
                 String.length rest
                 < String.length (String c (String esc (String h1 (String h2 (String h3 (String h4 s3))))))).
    { intros str' c' H. apply Rec in H; simpl in *; lia. }
    destruct (N.leb 55296 uni && N.leb uni 56319)%bool; [|apply R3].
    destruct s3 as [|b [|u [|l1 [|l2 [|l3 [|l4 s4]]]]]]; try apply R3.
    destruct (Ascii.eqb b "\" && Ascii.eqb u "u")%bool; [|apply R3].
    destruct (hex4 l1 l2 l3 l4) as [uni2|]; [|discriminate].
    destruct (N.leb 56320 uni2 && N.leb uni2 57343)%bool; [|apply R3].
    intros H. apply Rec in H; simpl in *; lia.
Qed.

Lemma scanstring_shorter s str rest :
  scanstring s = Some (str, rest) -> String.length rest < String.length s.
Proof. apply (scanstring_length (String.length s)). lia. Qed.

Lemma scan_shrinks fuel :
  shrinks (scan_once fuel)
  /\ (forall pairs, shrinks (fun s => object_loop fuel s pairs))
  /\ (forall values, shrinks (fun s => array_loop fuel s values)).
Proof.
  induction fuel as [|fuel (IH1 & IH2 & IH3)].
  - repeat split; intros; intros s v rest; simpl; discriminate.
  - split; [|split].
    + intros s v rest. cbn [scan_once].
      destruct s as [|c s1]; [discriminate|].
      destruct (Ascii.eqb c dquote).
      { destruct (scanstring s1) as [[str r]|] eqn:E; [|discriminate].
        intros [= <- <-]. apply scanstring_shorter in E. simpl. lia. }
      destruct (Ascii.eqb c "{").
      { pose proof (skip_ws_length s1) as Hw.
        destruct (skip_ws s1) as [|c' s2]; [discriminate|].
        destruct (Ascii.eqb c' "}"); [intros [= <- <-]; simpl in *; lia|].
        destruct (Ascii.eqb c' dquote); [|discriminate].
        intros H. apply IH2 in H. simpl in *. lia. }
      destruct (Ascii.eqb c "[").
      { pose proof (skip_ws_length s1) as Hw.
        assert (A : forall t, String.length t <= String.length s1 ->
                    array_loop fuel t [] = Ok v rest ->
                    String.length rest <= String.length (String c s1)).
        { intros t Ht H. apply IH3 in H. simpl. lia. }
        destruct (skip_ws s1) as [|c' s2] eqn:E; [now apply A|].
        destruct c' as [[] [] [] [] [] [] [] []]; try (now apply A).
        intros [= <- <-]. simpl in *. lia. }
      destruct (startswith (String c s1) "null");
        [intros [= <- <-]; exact (drop_length 4 (String c s1))|].
      destruct (startswith (String c s1) "true");
        [intros [= <- <-]; exact (drop_length 4 (String c s1))|].
      destruct (startswith (String c s1) "false");
        [intros [= <- <-]; exact (drop_length 5 (String c s1))|].
      destruct (Re.match_at NUMBER_RE None 0 (String c s1)) as [m|];
        [intros [= <- <-]; exact (drop_length (Re.m_end m) (String c s1))|].
      destruct (startswith (String c s1) "NaN");
        [intros [= <- <-]; exact (drop_length 3 (String c s1))|].
      destruct (startswith (String c s1) "Infinity");
        [intros [= <- <-]; exact (drop_length 8 (String c s1))|].
      destruct (startswith (String c s1) "-Infinity");
        [intros [= <- <-]; exact (drop_length 9 (String c s1))|].
      discriminate.
    + intros pairs s v rest. cbn [object_loop].
      destruct (scanstring s) as [[key s1]|] eqn:E; [|discriminate].
      apply scanstring_shorter in E. pose proof (skip_ws_length s1) as Hw.
      destruct (skip_ws s1) as [|c s2]; [discriminate|].
      destruct c as [[] [] [] [] [] [] [] []]; try discriminate.
      pose proof (skip_ws_length s2) as Hw2.
      destruct (scan_once fuel (skip_ws s2)) as [v' s3| |] eqn:E1; try discriminate.
      apply IH1 in E1. pose proof (skip_ws_length s3) as Hw3.
      destruct (skip_ws s3) as [|c s4]; [discriminate|].
      destruct (Ascii.eqb c "}"); [intros [= <- <-]; simpl in *; lia|].
      destruct (Ascii.eqb c ","); [|discriminate].
      pose proof (skip_ws_length s4) as Hw4.
      destruct (skip_ws s4) as [|c' s5]; [discriminate|].
      destruct (Ascii.eqb c' dquote); [|discriminate].
      intros H. apply IH2 in H. simpl in *. lia.
    + intros values s v rest. cbn [array_loop].
      destruct (scan_once fuel s) as [v' s1| |] eqn:E1; try discriminate.
      apply IH1 in E1. pose proof (skip_ws_length s1) as Hw.
      destruct (skip_ws s1) as [|c s2]; [discriminate|].
      destruct (Ascii.eqb c "]"); [intros [= <- <-]; simpl in *; lia|].
      destruct (Ascii.eqb c ","); [|discriminate].
      pose proof (skip_ws_length s2) as Hw2.
      intros H. apply IH3 in H. simpl in *. lia.
Qed.

Lemma scan_fuel fuel :
  (forall s, 2 * String.length s < fuel -> scan_once fuel s <> OutOfFuel)
  /\ (forall s pairs, 2 * String.length s + 1 < fuel -> object_loop fuel s pairs <> OutOfFuel)
  /\ (forall s values, 2 * String.length s + 1 < fuel -> array_loop fuel s values <> OutOfFuel).
Proof.
  induction fuel as [|fuel (IH1 & IH2 & IH3)].
  - repeat split; intros; lia.
  - split; [|split].
    + intros s Hs. cbn [scan_once].
      destruct s as [|c s1]; [discriminate|]. simpl in Hs.
      destruct (Ascii.eqb c dquote).
      { destruct (scanstring s1) as [[str r]|]; discriminate. }
      destruct (Ascii.eqb c "{").
      { pose proof (skip_ws_length s1) as Hw.
        destruct (skip_ws s1) as [|c' s2]; [discriminate|].
        destruct (Ascii.eqb c' "}"); [discriminate|].
        destruct (Ascii.eqb c' dquote); [|discriminate].
        apply IH2. simpl in *. lia. }
      destruct (Ascii.eqb c "[").
      { pose proof (skip_ws_length s1) as Hw.
        assert (A : forall t, String.length t <= String.length s1 ->
                    array_loop fuel t [] <> OutOfFuel).
        { intros t Ht. apply IH3. lia. }
        destruct (skip_ws s1) as [|c' s2] eqn:E; [now apply A|].
        destruct c' as [[] [] [] [] [] [] [] []]; try (now apply A).
        discriminate. }
      destruct (startswith (String c s1) "null"); [discriminate|].
      destruct (startswith (String c s1) "true"); [discriminate|].
      destruct (startswith (String c s1) "false"); [discriminate|].
      destruct (Re.match_at NUMBER_RE None 0 (String c s1)); [discriminate|].
      destruct (startswith (String c s1) "NaN"); [discriminate|].
      destruct (startswith (String c s1) "Infinity"); [discriminate|].
      destruct (startswith (String c s1) "-Infinity"); discriminate.
    + intros s pairs Hs. cbn [object_loop].
      destruct (scanstring s) as [[key s1]|] eqn:E; [|discriminate].
      apply scanstring_shorter in E. pose proof (skip_ws_length s1) as Hw.
      destruct (skip_ws s1) as [|c s2]; [discriminate|].
      destruct c as [[] [] [] [] [] [] [] []]; try discriminate.
      pose proof (skip_ws_length s2) as Hw2.
      destruct (scan_once fuel (skip_ws s2)) as [v' s3| |] eqn:E1; try discriminate.
      * apply (proj1 (scan_shrinks fuel)) in E1. pose proof (skip_ws_length s3) as Hw3.
        destruct (skip_ws s3) as [|c s4]; [discriminate|].
        destruct (Ascii.eqb c "}"); [discriminate|].
        destruct (Ascii.eqb c ","); [|discriminate].
        pose proof (skip_ws_length s4) as Hw4.
        destruct (skip_ws s4) as [|c' s5]; [discriminate|].
        destruct (Ascii.eqb c' dquote); [|discriminate].
        apply IH2. simpl in *. lia.
      * exfalso. revert E1. apply IH1. simpl in *. lia.
    + intros s values Hs. cbn [array_loop].
      destruct (scan_once fuel s) as [v' s1| |] eqn:E1; try discriminate.
      * apply (proj1 (scan_shrinks fuel)) in E1. pose proof (skip_ws_length s1) as Hw.
        destruct (skip_ws s1) as [|c s2]; [discriminate|].
        destruct (Ascii.eqb c "]"); [discriminate|].
        destruct (Ascii.eqb c ","); [|discriminate].
        pose proof (skip_ws_length s2) as Hw2.
        apply IH3. simpl in *. lia.
      * exfalso. revert E1. apply IH1. lia.
Qed.

(** [decode] parses or raises [JSONDecodeError]; it never stops for
    want of fuel. *)
Lemma loads_fuel s : decode s <> OutOfFuel.
Proof.
  unfold decode. pose proof (skip_ws_length s) as Hw.
  destruct (scan_once _ _) as [v rest| |] eqn:E.
  - destruct (skip_ws rest); discriminate.
  - discriminate.
  - exfalso. revert E. apply (proj1 (scan_fuel _)). lia.
Qed.

End JsonFacts.

(** ** The fenced block the reconciler looks for *)

Module FenceFacts.
Import PyStr Spec Aux Re.

Lemma substring_prefix a b : substring 0 (String.length a) (a ++ b)%string = a.
Proof. induction a as [|c a IH]; simpl; [now destruct b | now rewrite IH]. Qed.

(** A literal that is there is passed over. *)
Lemma run_lit l : forall pv i t gs k,
  run (lit l) (mk_state pv i (l ++ t)%string gs) k
  = k (mk_state (last_char pv l) (i + String.length l) t gs).
Proof.
  induction l as [|c l IH]; intros pv i t gs k; cbn [lit append last_char String.length].
  - rewrite ReFacts.run_eps. now rewrite Nat.add_0_r.
  - rewrite ReFacts.run_seq, ReFacts.run_chr, Ascii.eqb_refl.
    rewrite IH. now rewrite Nat.add_succ_r.
Qed.

(** A literal that is not there stops the match. *)
Lemma run_lit_fails l : forall pv i s gs k,
  startswith s l = false -> run (lit l) (mk_state pv i s gs) k = None.
Proof.
  induction l as [|c l IH]; intros pv i s gs k H.
  - destruct s; discriminate.
  - cbn [lit]. rewrite ReFacts.run_seq. destruct s as [|a s].
    + apply ReFacts.run_chr_end.
    + rewrite ReFacts.run_chr. simpl in H.
      destruct (Ascii.eqb a c); [|reflexivity]. simpl in H. now apply IH.
Qed.

(** [\s*] over a run of whitespace that ends: if the rest of the pattern
    matches after the whole run, that is the match. *)
Lemma greedy_spaces ws : forall t k gs pv i r,
  all_space ws = true -> starts_nonspace t = true ->
  k (mk_state (last_char pv ws) (i + String.length ws) t gs) = Some r ->
  star_greedy is_space k gs pv i (ws ++ t)%string = Some r.
Proof.
  induction ws as [|a ws IH]; intros t k gs pv i r Hws Ht Hk;
    cbn [append last_char String.length] in *.
  - rewrite Nat.add_0_r in Hk. destruct t as [|c t]; [discriminate|].
    cbn [star_greedy]. simpl in Ht. apply negb_true_iff in Ht. now rewrite Ht.
  - simpl in Hws. apply andb_true_iff in Hws. destruct Hws as [Ha Hws].
    cbn [star_greedy]. rewrite Ha.
    rewrite (IH t k gs (Some a) (S i) r); auto.
    now rewrite Nat.add_succ_r in Hk.
Qed.

(** The end of the pattern, [\s*```], does not match inside a text that
    has no backquote and ends with a character that is not whitespace. *)
Lemma closing_fails b : forall tail pv i gs,
  no_backquote b = true -> ends_nonspace b = true ->
  closing (mk_state pv i (b ++ tail)%string gs) = None.
Proof.
  unfold closing. intros tail pv i gs. rewrite ReFacts.run_seq, ReFacts.run_greedy.
  revert pv i.
  induction b as [|a b IH]; intros pv i Hb He; [discriminate|].
  cbn [append star_greedy]. simpl in Hb. apply andb_true_iff in Hb.
  destruct Hb as [Ha Hb]. apply negb_true_iff in Ha.
  assert (Hk : run (Seq (lit "```") Eps)
                 (mk_state pv i (String a (b ++ tail)) gs) Some = None).
  { rewrite ReFacts.run_seq. apply run_lit_fails. simpl. now rewrite Ha. }
  destruct (is_space a) eqn:Ea; [|exact Hk].
  rewrite IH; auto.
  destruct b; [simpl in He; rewrite Ea in He; discriminate | exact He].
Qed.

Lemma closing_matches ws after pv i gs :
  all_space ws = true ->
  closing (mk_state pv i (ws ++ "```" ++ after)%string gs)
  = Some (mk_state (Some "`"%char) (i + String.length ws + 3) after gs).
Proof.
  intros Hws. unfold closing. rewrite ReFacts.run_seq, ReFacts.run_greedy.
  apply greedy_spaces; auto.
  rewrite ReFacts.run_seq, (run_lit "```"), ReFacts.run_eps. reflexivity.
Qed.

(** [.*?] (any character) followed by [k]: the shortest text after which
    [k] matches. *)
Lemma lazy_until inner : forall tail (k : state -> option state) gs pv i r,
  (forall a b pv' i', inner = (a ++ b)%string -> b <> EmptyString ->
     k (mk_state pv' i' (b ++ tail)%string gs) = None) ->
  k (mk_state (last_char pv inner) (i + String.length inner) tail gs) = Some r ->
  star_lazy Analyzer.any_char k gs pv i (inner ++ tail)%string = Some r.
Proof.
  induction inner as [|c inner IH]; intros tail k gs pv i r Hfail Hk;
    cbn [append last_char String.length] in *.
  - rewrite Nat.add_0_r in Hk. destruct tail; cbn [star_lazy]; now rewrite Hk.
  - cbn [star_lazy].
    assert (H0 := Hfail EmptyString (String c inner) pv i eq_refl).
    cbn [append] in H0. rewrite H0 by discriminate.
    unfold Analyzer.any_char at 1. apply IH.
    + intros a b pv' i' E Hb. apply (Hfail (String c a) b); [|assumption].
      simpl. now rewrite E.
    + now rewrite Nat.add_succ_r in Hk.
Qed.

Lemma suffix_clean a b :
  no_backquote (a ++ b)%string = true -> ends_nonspace (a ++ b)%string = true ->
  b <> EmptyString -> no_backquote b = true /\ ends_nonspace b = true.
Proof.
  induction a as [|c a IH]; simpl; [auto|].
  intros Hn He Hb. apply andb_true_iff in Hn. destruct Hn as [_ Hn].
  apply IH; auto. destruct (a ++ b)%string eqn:E; [|exact He].
  destruct a; simpl in E; [contradiction | discriminate].
Qed.

(** The pattern matches at the opening of a block and captures its
    inner text. *)
Lemma block_matches ws1 inner ws2 after pv i :
  all_space ws1 = true -> all_space ws2 = true ->
  starts_nonspace inner = true -> ends_nonspace inner = true ->
  no_backquote inner = true ->
  exists m,
    match_at LLM.json_block_pattern pv i
      ("```json" ++ ws1 ++ inner ++ ws2 ++ "```" ++ after)%string = Some m
    /\ group m 1 = inner.
Proof.
  intros H1 H2 Hs He Hn.
  set (final := mk_state (Some "`"%char)
                  (i + String.length "```json" + String.length ws1
                   + String.length inner + String.length ws2 + 3)
                  after [(1, inner)]).
  assert (Hrun : run LLM.json_block_pattern
                   (mk_state pv i ("```json" ++ ws1 ++ inner ++ ws2 ++ "```" ++ after)%string [])
                   Some = Some final).
  { unfold LLM.json_block_pattern. cbn [cat].
    rewrite ReFacts.run_seq, (run_lit "```json"), ReFacts.run_seq, ReFacts.run_greedy.
    apply greedy_spaces; [assumption | destruct inner; [discriminate | exact Hs] |].
    rewrite ReFacts.run_seq, ReFacts.run_group, ReFacts.run_lazy.
    cbn [pos rest groups prev].
    apply lazy_until.
    - intros a b pv' i' E Hb. cbn [prev pos rest groups].
      destruct (suffix_clean a b) as [Hnb Heb]; try (rewrite <- E; assumption); auto.
      match goal with |- run _ ?st Some = _ => change (closing st = None) end.
      now apply closing_fails.
    - cbn [prev pos rest groups].
      match goal with |- run _ ?st Some = _ => change (closing st = Some final) end.
      rewrite closing_matches by assumption.
      replace (i + String.length "```json" + String.length ws1 + String.length inner
               - (i + String.length "```json" + String.length ws1))
        with (String.length inner) by lia.
      rewrite substring_prefix. reflexivity. }
  unfold match_at. rewrite Hrun. eexists. split; reflexivity.
Qed.

Lemma find_here before : forall rest sub,
  find (before ++ rest)%string sub = Some (String.length before) ->
  forall a b, before = (a ++ b)%string -> b <> EmptyString ->
    startswith (b ++ rest)%string sub = false.
Proof.
  induction before as [|c before IH]; intros rest sub Hf a b E Hb.
  - destruct a; destruct b; simpl in E; congruence.
  - cbn [append find] in Hf.
    destruct (startswith (String c (before ++ rest)) sub) eqn:Es; [discriminate|].
    destruct (find (before ++ rest)%string sub) as [n|] eqn:En; [|discriminate].
    simpl in Hf. assert (n = String.length before) by congruence. subst n.
    destruct a as [|c' a]; simpl in E.
    + subst b. exact Es.
    + inversion E; subst. eapply IH; eauto.
Qed.

(** [re.search] passes over a text in which the pattern's opening
    literal does not occur. *)
Lemma search_skips before : forall r open block pv i,
  (forall pv' i' s, startswith s open = false ->
                    match_at (Seq (lit open) r) pv' i' s = None) ->
  find (before ++ block)%string open = Some (String.length before) ->
  search_from (Seq (lit open) r) pv i (before ++ block)%string
  = search_from (Seq (lit open) r) (last_char pv before) (i + String.length before) block.
Proof.
  induction before as [|c before IH]; intros r open block pv i Hfail Hf.
  - simpl. now rewrite Nat.add_0_r.
  - cbn [append search_from last_char String.length].
    rewrite Hfail.
    + rewrite IH; auto.
      * now rewrite Nat.add_succ_r.
      * cbn [append find] in Hf.
        destruct (startswith (String c (before ++ block)) open); [discriminate|].
        destruct (find (before ++ block)%string open) as [n|]; [|discriminate].
        simpl in Hf. congruence.
    + exact (find_here (String c before) block open Hf EmptyString (String c before)
               eq_refl ltac:(discriminate)).
Qed.

Lemma match_needs_opening r open pv i s :
  startswith s open = false -> match_at (Seq (lit open) r) pv i s = None.
Proof.
  intros H. unfold match_at. rewrite ReFacts.run_seq, run_lit_fails; auto.
Qed.

(** The search finds the first block of a text and captures its inner
    text, stripped of the whitespace around it. *)
Lemma first_block_found before ws1 inner ws2 after :
  let opening := "```json" in
  let raw := (before ++ opening ++ ws1 ++ inner ++ ws2 ++ "```" ++ after)%string in
  find raw opening = Some (String.length before) ->
  all_space ws1 = true -> all_space ws2 = true ->
  starts_nonspace inner = true -> ends_nonspace inner = true ->
  no_backquote inner = true ->
  exists m, search LLM.json_block_pattern raw = Some m /\ group m 1 = inner.
Proof.
  intros opening raw Hf H1 H2 Hs He Hn. unfold search, raw.
  unfold LLM.json_block_pattern. cbn [cat].
  rewrite search_skips; [| intros; now apply match_needs_opening | exact Hf].
  destruct (block_matches ws1 inner ws2 after (last_char None before)
              (0 + String.length before) H1 H2 Hs He Hn) as (m & Hm & Hg).
  exists m. split; [|exact Hg].
  destruct (opening ++ ws1 ++ inner ++ ws2 ++ "```" ++ after)%string eqn:E;
    cbn [search_from]; unfold LLM.json_block_pattern in Hm; cbn [cat] in Hm;
    unfold opening in E; rewrite E in Hm; now rewrite Hm.
Qed.

End FenceFacts.

(** ** [str.strip] *)

Module StripFacts.
Import PyStr.

Lemma lstrip_head s c s' : lstrip s = String c s' -> is_space c = false.
Proof.
  induction s as [|a s IH]; simpl; [discriminate|].
  destruct (is_space a) eqn:E; [exact IH|]. intros [= <- <-]. exact E.
Qed.

Lemma lstrip_fixed c s : is_space c = false -> lstrip (String c s) = String c s.
Proof. intros H. simpl. now rewrite H. Qed.

Lemma rstrip_head c s :
  is_space c = false -> exists r, rstrip (String c s) = String c r.
Proof.
  intros H. simpl. destruct (rstrip s); [rewrite H|]; eauto.
Qed.

Lemma rstrip_rstrip s : rstrip (rstrip s) = rstrip s.
Proof.
  induction s as [|c s IH]; simpl; [reflexivity|].
  destruct (rstrip s) as [|d r] eqn:E.
  - destruct (is_space c) eqn:Ec; simpl; [reflexivity | now rewrite Ec].
  - cbn [rstrip]. cbn [rstrip] in IH. now rewrite IH.
Qed.

Lemma strip_strip s : strip (strip s) = strip s.
Proof.
  unfold strip. destruct (lstrip s) as [|c t] eqn:E; [reflexivity|].
  apply lstrip_head in E.
  destruct (rstrip_head c t E) as (r & Hr). rewrite Hr.
  rewrite lstrip_fixed by assumption. rewrite <- Hr. apply rstrip_rstrip.
Qed.

End StripFacts.

Module SelectorClaims.
Import PyStr Analyzer Spec Aux Inputs.
Import SelectorFacts TraversalFacts GraphFacts.

(** *** The selector *)

(** C1, as stated, fails: a corpus of one file that no keyword matches
    and that has none of the three fallback names gives an empty
    result, below min(3, 1) = 1. *)
Lemma C1_empty_result_on_nonempty_corpus :
  length (find_relevant_files (init tiny_corpus) "add encryption") = 0
  /\ Nat.min 3 (length (file_contents (init tiny_corpus))) = 1.
Proof. split; vm_compute; reflexivity. Qed.

(** C1 (amended): for every corpus and prompt the result of
    [find_relevant_files] has at least min(3, n) entries, n being the
    number of corpus files whose path ends in main.tf, variables.tf or
    outputs.tf. *)
Theorem C1_result_covers_important_files (files : list (string * string)) (prompt : string) :
  Nat.min 3 (length (filter important (keys (file_contents (init files)))))
  <= length (find_relevant_files (init files) prompt).
Proof.
  pose proof (init_keys files) as Hk. unfold find_relevant_files.
  apply important_files_bound; [exact Hk|].
  apply dependency_pass_grows; [exact Hk|].
  apply vpc_pass_grows; [exact Hk|].
  now apply keyword_pass_within.
Qed.

(** C10: the result is a subset of the corpus, entry by entry, and each
    pass keeps the entries of the pass before it. *)
Theorem C10_result_within_corpus_and_growing (files : list (string * string)) (prompt : string) :
  let self := init files in
  let after_keywords := keyword_pass self (_extract_keywords_from_prompt prompt) in
  let after_vpc := vpc_pass self prompt after_keywords in
  let after_dependencies := dependency_pass self after_vpc in
  let result := fallback_pass self after_dependencies in
  find_relevant_files self prompt = result
  /\ incl after_keywords after_vpc
  /\ incl after_vpc after_dependencies
  /\ incl after_dependencies result
  /\ incl result (file_contents self)
  /\ NoDup (keys result).
Proof.
  intros self r1 r2 r3 r4. pose proof (init_keys files) as Hk. fold self in Hk.
  assert (H1 : within self r1) by now apply keyword_pass_within.
  destruct (vpc_pass_grows self Hk prompt r1 H1) as [G2 H2]. fold r2 in G2, H2.
  destruct (dependency_pass_grows self Hk r2 H2) as [G3 H3]. fold r3 in G3, H3.
  destruct (fallback_pass_grows self Hk r3 H3) as [G4 [H4 N4]]. fold r4 in G4, H4, N4.
  repeat split; assumption.
Qed.

(** The scenarios of the specification: with no keyword match the
    fallback brings in both files of the corpus; a prompt that names the
    VPC selects a file that mentions only a subnet. *)
Example fallback_scenario :
  find_relevant_files (init two_file_corpus) "add encryption"
  = file_contents (init two_file_corpus).
Proof. vm_compute. reflexivity. Qed.

Example vpc_scenario :
  keys (find_relevant_files (init subnet_corpus) "harden the vpc") = ["net.tf"].
Proof. vm_compute. reflexivity. Qed.

(** *** The traversal *)

Lemma loop_fuel_mono (call call' : string -> list string -> option (list string * list string)) :
  (forall fp v r, call fp v = Some r -> call' fp v = Some r) ->
  forall deps acc v r,
    dependencies_loop call deps acc v = Some r ->
    dependencies_loop call' deps acc v = Some r.
Proof.
  intros H. induction deps as [|dep deps IH]; intros acc v r; simpl; [auto|].
  destruct (call dep v) as [[sub v']|] eqn:E; [|discriminate].
  rewrite (H _ _ _ E). apply IH.
Qed.

Lemma fuel_mono graph fuel : forall fuel' fp v r,
  fuel <= fuel' ->
  find_all_dependencies_rec fuel graph fp v = Some r ->
  find_all_dependencies_rec fuel' graph fp v = Some r.
Proof.
  induction fuel as [|fuel IH]; intros fuel' fp v r Hle; [discriminate|].
  destruct fuel' as [|fuel']; [lia|]. simpl.
  destruct (in_list fp v); [auto|].
  apply loop_fuel_mono. intros fp' v' r'. apply IH. lia.
Qed.

Lemma traversal_result (graph : dict (list string)) (file_path : string) :
  exists dependencies visited,
    (forall fuel, 2 + length (graph_nodes graph) <= fuel ->
       find_all_dependencies_rec fuel graph file_path [] = Some (dependencies, visited))
    /\ NoDup visited
    /\ (forall x, In x visited <-> reachable graph file_path x)
    /\ (forall y, In y dependencies <->
          exists x, reachable graph file_path x /\ edge graph x y).
Proof.
  destruct (top_call_returns graph file_path) as (r & v & E).
  exists r, v. pose proof (call_sound graph _ _ _ _ _ E) as [c1 c2 c3 c4 c5 c6].
  assert (Hv : forall x, In x v <-> reachable graph file_path x).
  { intros x. split.
    - intros Hx. destruct (c4 x Hx) as [[]|]; assumption.
    - intros Hr. induction Hr as [|y z _ IH Hyz]; [exact c2|].
      eapply c5; [exact IH | intros [] | exact Hyz]. }
  split; [|split; [|split]].
  - intros fuel Hf. eapply fuel_mono; eassumption.
  - apply c3. constructor.
  - exact Hv.
  - intros y. rewrite c6. split.
    + intros (x & Hx & _ & He). exists x. split; [now apply Hv | exact He].
    + intros (x & Hx & He). exists x. repeat split; [now apply Hv | intros [] | exact He].
Qed.



(** On the three-file cycle: every file is expanded once, and the three
    are the dependencies of the first. *)
Example cyclic_graph_traversal :
  find_all_dependencies_rec 11 cyclic_graph "a.tf" []
  = Some (["c.tf"; "a.tf"; "b.tf"], ["c.tf"; "b.tf"; "a.tf"]).
Proof. vm_compute. reflexivity. Qed.


(** *** The graph builder *)







(** C8, as stated, fails: a file that uses a variable it declares gets
    an edge to itself. *)
Lemma C8_self_edge :
  edges (dependency_graph (init self_referring_corpus)) "variables.tf" = ["variables.tf"].
Proof. vm_compute. reflexivity. Qed.

(** C8 (amended): every edge of the built graph goes from a corpus file
    to a corpus file, which may be the same one: a file whose path starts
    with the directory a relative module source of the first resolves
    to, or a file whose text declares a variable the first refers to;
    and every such pair is an edge. *)
Theorem C8_edges_of_built_graph (files : list (string * string)) (file_path other_file : string) :
  let self := init files in
  let contents := file_contents self in
  edge (dependency_graph self) file_path other_file <->
  exists content,
    In (file_path, content) contents
    /\ ((exists source,
           In source (_extract_module_sources content)
           /\ (startswith source "./" || startswith source "../")%bool = true
           /\ In other_file (keys contents)
           /\ startswith other_file
                (PosixPath.normpath
                   (PosixPath.join (PosixPath.dirname file_path) source)) = true)
        \/ (exists var_name other_content,
              In var_name (_extract_variable_references content)
              /\ In (other_file, other_content) contents
              /\ contains other_content (declaration_of var_name) = true)).
Proof.
  intros self contents. unfold edge. unfold self. rewrite init_edge_iff.
  fold self. fold contents. unfold edges_of.
  split; intros (content & Hin & H); exists content; (split; [exact Hin|]).
  - apply in_app_or in H. destruct H as [H|H]; apply in_flat_map in H.
    + left. destruct H as (source & Hs & Ht). exists source. unfold module_targets in Ht.
      destruct (startswith source "./" || startswith source "../")%bool; [|destruct Ht].
      apply filter_In in Ht. tauto.
    + right. destruct H as (var_name & Hv & Ht). unfold variable_targets in Ht.
      apply in_map_iff in Ht. destruct Ht as ([k c] & <- & Hk).
      apply filter_In in Hk. exists var_name, c. tauto.
  - apply in_or_app. destruct H as [(source & Hs & Hrel & Hk & Hp)|(var_name & c & Hv & Hk & Hc)].
    + left. apply in_flat_map. exists source. split; [exact Hs|].
      unfold module_targets. rewrite Hrel. apply filter_In. tauto.
    + right. apply in_flat_map. exists var_name. split; [exact Hv|].
      unfold variable_targets. apply in_map_iff. exists (other_file, c).
      split; [reflexivity|]. apply filter_In. tauto.
Qed.

(** *** Keyword extraction *)

Example word_tokens_of_a_prompt :
  word_tokens "Add s3 encryption, to_the bucket!"
  = ["Add"; "s3"; "encryption"; "to_the"; "bucket"].
Proof. vm_compute. reflexivity. Qed.



End SelectorClaims.

Module ReconcilerClaims.
Import PyStr Spec Aux Inputs LLM.

Lemma extract_by_json_text response :
  _extract_modified_files response = parse_or_fall_back (json_text response) response.
Proof.
  unfold _extract_modified_files, json_text.
  now destruct (Re.search json_block_pattern response).
Qed.

(** [json.loads] either gives a value or raises [JSONDecodeError]. *)
Lemma loads_none s : Json.loads s = None <-> Json.decode s = Json.DecodeError.
Proof.
  unfold Json.loads. pose proof (JsonFacts.loads_fuel s) as H.
  destruct (Json.decode s); split; congruence.
Qed.

(** What the reconciler does with a value that is a number, a boolean or
    null: the [len] of the log line raises. *)
Lemma number_raises_type_error : _extract_modified_files "42" = RaisesTypeError.
Proof. reflexivity. Qed.

(** C2, as stated, fails: the text [{}] has no fenced block and parses
    as a whole, so the second tier succeeds, and the mapping returned is
    empty. *)
Lemma C2_empty_mapping_without_failure :
  _extract_modified_files "{}" = Returns (Json.Obj [])
  /\ Re.search json_block_pattern "{}" = None
  /\ Json.loads "{}" = Some (Json.Obj []).
Proof. repeat split; reflexivity. Qed.

(** C2 (amended): for every response the reconciler makes one strict
    parse, of the inner text of the first fenced block if there is one
    and of the whole text otherwise.  If that parse fails it raises
    nothing and returns the mapping of the manual extraction; if it
    gives an object it returns that object; and the mapping returned is
    empty only when the object parsed is empty, or the parse failed and
    the manual extraction found no section. *)
Theorem C2_reconcile_outcomes (response : string) :
  (Json.loads (json_text response) = None ->
     _extract_modified_files response
     = Returns (files_value (_extract_files_manually response)))
  /\ (forall members, Json.loads (json_text response) = Some (Json.Obj members) ->
        _extract_modified_files response = Returns (Json.Obj members))
  /\ (_extract_modified_files response = Returns (Json.Obj []) ->
        Json.loads (json_text response) = Some (Json.Obj [])
        \/ (Json.loads (json_text response) = None
            /\ _extract_files_manually response = [])).
Proof.
  rewrite extract_by_json_text. unfold parse_or_fall_back.
  destruct (Json.loads (json_text response)) as [v|]; repeat split.
  - discriminate.
  - intros members [= ->]. reflexivity.
  - destruct (Json.len v); [|discriminate]. intros [= ->]. now left.
  - discriminate.
  - intros [= H]. right. split; [reflexivity|].
    destruct (_extract_files_manually response); [reflexivity | discriminate].
Qed.

Lemma C2_reconcile_outcomes_witness :
  _extract_modified_files "no files were changed"
  = Returns (files_value (_extract_files_manually "no files were changed")).
Proof.
  apply (proj1 (C2_reconcile_outcomes "no files were changed")). reflexivity.
Defined.

(** C4, as stated, fails: this text parses as a whole as an object, and
    it holds a fenced block whose inner text, [x], does not parse; the
    reconciler goes from the block to the manual extraction and returns
    an empty mapping, not the object. *)
Lemma C4_whole_text_parse_skipped :
  Json.loads quoted_fence = Some (Json.Obj [("a.tf", Json.Str "```json x ```")])
  /\ json_text quoted_fence = "x"
  /\ Json.loads "x" = None
  /\ _extract_modified_files quoted_fence = Returns (Json.Obj []).
Proof. repeat split; reflexivity. Qed.

(** C4 (amended): the whole-text parse is made only when the response
    has no fenced block; then an object it gives is returned, and a
    failure leads to the manual extraction.  When the response has a
    fenced block whose inner text fails the strict parse, the reconciler
    goes straight to the manual extraction of the response. *)
Theorem C4_tier_order (response : string) :
  (Re.search json_block_pattern response = None ->
     (forall members, Json.loads response = Some (Json.Obj members) ->
        _extract_modified_files response = Returns (Json.Obj members))
     /\ (Json.loads response = None ->
         _extract_modified_files response
         = Returns (files_value (_extract_files_manually response))))
  /\ (forall json_match,
        Re.search json_block_pattern response = Some json_match ->
        Json.loads (Re.group json_match 1) = None ->
        _extract_modified_files response
        = Returns (files_value (_extract_files_manually response))).
Proof.
  unfold _extract_modified_files, parse_or_fall_back. split.
  - intros ->. split.
    + intros members ->. reflexivity.
    + intros ->. reflexivity.
  - intros m -> ->. reflexivity.
Qed.

Lemma C4_tier_order_witness :
  _extract_modified_files (q "{'main.tf': 'terraform {}'}")
  = Returns (Json.Obj [("main.tf", Json.Str "terraform {}")]).
Proof.
  apply (proj1 (proj1 (C4_tier_order (q "{'main.tf': 'terraform {}'}")) eq_refl)).
  reflexivity.
Defined.

(** C5, as stated, fails: in a text with two fenced blocks the search
    finds the first, and the object of the second is not returned. *)
Lemma C5_second_block_ignored :
  occurs_in ("```json" ++ nl ++ two_files ++ nl ++ "```")%string two_blocks
  /\ json_text two_blocks = "{}"
  /\ _extract_modified_files two_blocks = Returns (Json.Obj []).
Proof.
  split; [|split; reflexivity].
  exists ("```json {} ```" ++ nl)%string, EmptyString. reflexivity.
Qed.

(** C5 (amended): for every text whose first fenced block, the block
    opened by the first [```json] of the text, has the object as its
    inner text between optional whitespace, the reconciler returns
    exactly the mapping of the object. *)
Theorem C5_first_block_round_trip (before ws1 ws2 after : string) :
  let raw := (before ++ "```json" ++ ws1 ++ two_files ++ ws2 ++ "```" ++ after)%string in
  find raw "```json" = Some (String.length before) ->
  all_space ws1 = true -> all_space ws2 = true ->
  _extract_modified_files raw = Returns two_files_mapping.
Proof.
  intros raw Hfind H1 H2.
  destruct (FenceFacts.first_block_found before ws1 two_files ws2 after Hfind H1 H2)
    as (m & Hm & Hg); try reflexivity.
  fold raw in Hm. unfold _extract_modified_files. rewrite Hm, Hg.
  unfold parse_or_fall_back.
  assert (E : Json.loads two_files = Some two_files_mapping) by reflexivity.
  rewrite E. reflexivity.
Qed.

Lemma C5_first_block_round_trip_witness :
  _extract_modified_files
    ("Here are the files." ++ nl ++ "```json" ++ nl ++ two_files ++ nl ++ "```"
     ++ " Done.")%string
  = Returns two_files_mapping.
Proof.
  apply (C5_first_block_round_trip ("Here are the files." ++ nl)%string nl nl " Done.");
    reflexivity.
Defined.

(** Every entry of the manual extraction has its path and its content
    stripped. *)
Lemma manual_entries_stripped text file_path content :
  In (file_path, content) (_extract_files_manually text) ->
  strip file_path = file_path /\ strip content = content.
Proof.
  unfold _extract_files_manually.
  set (P := fun kv : string * string => strip (fst kv) = fst kv /\ strip (snd kv) = snd kv).
  assert (G : forall ms files, (forall e, In e files -> P e) ->
              forall e, In e (fold_left (fun files m =>
                                 let file_path := strip (Re.group m 1) in
                                 let content := strip (Re.group m 2) in
                                 dict_set files file_path content) ms files) -> P e).
  { induction ms as [|m ms IH]; intros files Hf; simpl; [exact Hf|].
    apply IH. intros e He. apply dict_set_in in He. destruct He as [->|He]; [|auto].
    split; apply StripFacts.strip_strip. }
  intros H. apply (G _ [] (fun e (H0 : In e []) => match H0 with end) _ H).
Qed.

(** C6: the text has no fenced block and does not parse as a whole; its
    two sections are (a.tf, HELLO and a newline) and (b.tf, WORLD); the
    reconciler returns a.tf with HELLO and b.tf with WORLD; and whatever
    the text, the paths and contents of the manual extraction are
    stripped of the whitespace around them. *)
Theorem C6_manual_fallback :
  Re.search json_block_pattern marked_sections = None
  /\ Json.loads marked_sections = None
  /\ map (fun m => (Re.group m 1, Re.group m 2)) (Re.finditer file_pattern marked_sections)
     = [("a.tf", ("HELLO" ++ nl)%string); ("b.tf", "WORLD")]
  /\ _extract_modified_files marked_sections
     = Returns (Json.Obj [("a.tf", Json.Str "HELLO"); ("b.tf", Json.Str "WORLD")])
  /\ forall text file_path content,
       In (file_path, content) (_extract_files_manually text) ->
       strip file_path = file_path /\ strip content = content.
Proof.
  split; [reflexivity|]. split; [reflexivity|]. split; [reflexivity|].
  split; [reflexivity|]. exact manual_entries_stripped.
Qed.

Lemma C6_manual_fallback_witness :
  strip "a.tf" = "a.tf" /\ strip "HELLO" = "HELLO".
Proof.
  apply (proj2 (proj2 (proj2 (proj2 C6_manual_fallback))) marked_sections).
  vm_compute. left. reflexivity.
Defined.

End ReconcilerClaims.

(** ** The selector, pass by pass: exactly what each pass adds *)

Module SelectionExtras.
Import PyStr Analyzer Spec Aux Notions Inputs.
Import SelectorFacts TraversalFacts GraphFacts.

Section Stores.
Variable c : dict string.
Hypothesis c_keys : NoDup (keys c).

Lemma set_iff r k v :
  incl r c -> In (k, v) c ->
  forall e, In e (dict_set r k v) <-> e = (k, v) \/ In e r.
Proof.
  intros Hr Hkv e. split.
  - apply dict_set_in.
  - intros [->|He]; [apply dict_set_has|].
    now apply (proj1 (set_grows c c_keys r k v Hr Hkv)).
Qed.

Lemma key_present r k v : incl r c -> In (k, v) c -> In k (keys r) -> In (k, v) r.
Proof.
  intros Hr Hkv Hk. unfold keys in Hk. apply in_map_iff in Hk.
  destruct Hk as ([k' v'] & E & Hin). simpl in E. subst k'.
  assert (v' = v) by (eapply NoDup_keys_functional; eauto). now subst.
Qed.

(** A loop in which the step for [x] stores the entry [ent x] of [c],
    unless its key is there already, and does nothing when [ent x] is
    [None]: the result holds what it held and the entries [ent x]. *)
Lemma fold_store {X : Type} (ent : X -> option (string * string))
    (f : dict string -> X -> dict string) (l : list X) :
  (forall r x, incl r c -> In x l ->
     match ent x with
     | None => f r x = r
     | Some kv => In kv c /\ (f r x = dict_set r (fst kv) (snd kv)
                              \/ (f r x = r /\ In (fst kv) (keys r)))
     end) ->
  forall r, incl r c ->
    incl (fold_left f l r) c
    /\ forall e, In e (fold_left f l r) <-> In e r \/ exists x, In x l /\ ent x = Some e.
Proof.
  induction l as [|x l IH]; intros Hf r Hr; simpl.
  - split; [assumption|]. intros e. split; [auto|]. intros [H|(x & [] & _)]. exact H.
  - assert (Hstep : incl (f r x) c
                    /\ forall e, In e (f r x) <-> In e r \/ ent x = Some e).
    { specialize (Hf r x Hr (or_introl eq_refl)).
      destruct (ent x) as [[k v]|].
      - destruct Hf as [Hkv [E|[E Hk]]]; rewrite E; simpl in *.
        + split; [apply (set_grows c c_keys r k v Hr Hkv)|].
          intros e. rewrite (set_iff r k v Hr Hkv). split.
          * intros [->|H]; auto.
          * intros [H|[= <-]]; auto.
        + split; [assumption|]. intros e. split; [auto|].
          intros [H|[= <-]]; [assumption|]. now apply key_present.
      - rewrite Hf. split; [assumption|]. intros e. split; [auto|].
        intros [H|H]; [assumption | discriminate]. }
    destruct Hstep as [Hinc Hiff].
    destruct (IH (fun r' x' Hr' Hx' => Hf r' x' Hr' (or_intror Hx')) (f r x) Hinc)
      as [Hinc' Hiff'].
    split; [assumption|]. intros e. rewrite Hiff', Hiff. split.
    + intros [[H|H]|(y & Hy & Ey)]; eauto.
    + intros [H|(y & [<-|Hy] & Ey)]; eauto.
Qed.

End Stores.

Lemma pick_some cond kv e : pick cond kv = Some e <-> e = kv /\ cond kv = true.
Proof.
  unfold pick. destruct (cond kv); split.
  - intros [= <-]. auto.
  - intros [-> _]. reflexivity.
  - discriminate.
  - intros [_ H]. discriminate.
Qed.

Section PassFacts.
Variable self : TerraformAnalyzer.
Hypothesis corpus_keys : NoDup (keys (file_contents self)).

Lemma guarded_store (cond : string * string -> bool) (r0 : dict string) :
  incl r0 (file_contents self) ->
  let r' := fold_left (fun r kv =>
              if (negb (dict_mem r (fst kv)) && cond kv)%bool
              then dict_set r (fst kv) (snd kv) else r) (file_contents self) r0 in
  forall e, In e r' <-> In e r0 \/ (In e (file_contents self) /\ cond e = true).
Proof.
  intros Hr0 r' e. unfold r'.
  destruct (fold_store (file_contents self) corpus_keys (pick cond)
              (fun r kv => if (negb (dict_mem r (fst kv)) && cond kv)%bool
                           then dict_set r (fst kv) (snd kv) else r)
              (file_contents self)) with (r := r0) as [_ H]; auto.
  - intros r kv Hr Hkv. unfold pick. destruct (cond kv) eqn:E.
    + rewrite andb_true_r. split; [assumption|].
      destruct (dict_mem r (fst kv)) eqn:Em; simpl; [right | now left].
      split; [reflexivity | now apply dict_mem_true].
    + now rewrite andb_false_r.
  - rewrite H. split; (intros [H0|H0]; [now left | right]).
    + destruct H0 as (x & Hx & Ex). apply pick_some in Ex. destruct Ex as [-> Ex]. auto.
    + destruct H0 as [H1 H2]. exists e. split; [assumption|]. now apply pick_some.
Qed.

Lemma keyword_pass_iff keywords p content :
  In (p, content) (keyword_pass self keywords) <->
  In (p, content) (file_contents self) /\ matches_any keywords p content = true.
Proof.
  unfold keyword_pass.
  destruct (fold_store (file_contents self) corpus_keys
              (pick (fun kv => matches_any keywords (fst kv) (snd kv)))
              (fun r kv => if matches_any keywords (fst kv) (snd kv)
                           then dict_set r (fst kv) (snd kv) else r)
              (file_contents self)) with (r := @nil (string * string)) as [_ H].
  - intros r kv Hr Hkv. unfold pick. destruct (matches_any _ _ _); [|reflexivity].
    split; [assumption | now left].
  - intros e [].
  - rewrite H. split.
    + intros [[]|(x & Hx & Ex)]. apply pick_some in Ex. destruct Ex as [<- Ex]. auto.
    + intros [H1 H2]. right. exists (p, content). split; [assumption|]. now apply pick_some.
Qed.

Lemma vpc_pass_iff prompt r p content :
  incl r (file_contents self) ->
  In (p, content) (vpc_pass self prompt r) <->
  In (p, content) r
  \/ (vpc_prompt prompt = true /\ In (p, content) (file_contents self)
      /\ matches_any vpc_keywords p content = true).
Proof.
  intros Hr. unfold vpc_pass. fold (vpc_prompt prompt).
  destruct (vpc_prompt prompt).
  - rewrite (guarded_store (fun kv => matches_any vpc_keywords (fst kv) (snd kv)) r Hr).
    simpl. tauto.
  - split; [auto|]. intros [H|(H & _)]; [assumption | discriminate].
Qed.

Lemma fallback_pass_iff r p content :
  incl r (file_contents self) ->
  In (p, content) (fallback_pass self r) <->
  In (p, content) r
  \/ (length r < 3 /\ In (p, content) (file_contents self) /\ important p = true).
Proof.
  intros Hr. unfold fallback_pass.
  destruct (Nat.ltb_spec (length r) 3) as [Hlt|Hge].
  - rewrite (guarded_store (fun kv => important (fst kv)) r Hr). simpl. tauto.
  - split; [auto|]. intros [H|(H & _)]; [assumption | lia].
Qed.

(** The dictionary of the dependencies found: the corpus files, not
    selected yet, that some selected file depends on. *)
Lemma dependency_files_iff r p content :
  In (p, content) (dependency_files_of self r) <->
  In (p, content) (file_contents self) /\ ~ In p (keys r)
  /\ exists f, In f (keys r) /\ In p (_find_all_dependencies self f).
Proof.
  unfold dependency_files_of.
  set (ent := fun dep : string =>
                if negb (dict_mem r dep)
                then option_map (pair dep) (dict_get (file_contents self) dep)
                else None).
  set (inner := fun (dependency_files : dict string) (dep : string) =>
                  if negb (dict_mem r dep)
                  then match dict_get (file_contents self) dep with
                       | Some content => dict_set dependency_files dep content
                       | None => dependency_files
                       end
                  else dependency_files).
  assert (Hent : forall dep e, ent dep = Some e <->
                   e = (dep, snd e) /\ In e (file_contents self) /\ ~ In dep (keys r)).
  { intros dep [k v]. unfold ent. simpl.
    destruct (dict_mem r dep) eqn:Em; simpl.
    - apply dict_mem_true in Em. split; [discriminate | tauto].
    - apply dict_mem_false in Em.
      destruct (dict_get (file_contents self) dep) as [ct|] eqn:Eg; simpl.
      + apply dict_get_in in Eg. split.
        * intros [= <- <-]. auto.
        * intros ([= ->] & Hin & _). f_equal. f_equal.
          eapply NoDup_keys_functional; eauto.
      + split; [discriminate|]. intros ([= ->] & Hin & _).
        apply in_keys in Hin. apply dict_get_some in Hin.
        destruct Hin as (v' & Hv). congruence. }
  assert (Hinner : forall deps d, incl d (file_contents self) ->
            incl (fold_left inner deps d) (file_contents self)
            /\ forall e, In e (fold_left inner deps d) <->
                 In e d \/ exists dep, In dep deps /\ ent dep = Some e).
  { intros deps d Hd.
    apply (fold_store (file_contents self) corpus_keys ent inner deps); [|assumption].
    intros d' dep Hd' _. unfold ent, inner.
    destruct (negb (dict_mem r dep)); [|reflexivity].
    destruct (dict_get (file_contents self) dep) as [ct|] eqn:Eg; simpl; [|reflexivity].
    split; [now apply dict_get_in | now left]. }
  assert (Houter : forall paths d, incl d (file_contents self) ->
            forall e, In e (fold_left (fun d' file_path =>
                             fold_left inner (_find_all_dependencies self file_path) d')
                            paths d) <->
              In e d \/ exists f dep, In f paths
                                      /\ In dep (_find_all_dependencies self f)
                                      /\ ent dep = Some e).
  { induction paths as [|f paths IH]; intros d Hd e; simpl.
    - split; [auto|]. intros [H|(f & dep & [] & _)]. exact H.
    - destruct (Hinner (_find_all_dependencies self f) d Hd) as [Hinc Hiff].
      rewrite (IH _ Hinc), Hiff. split.
      + intros [[H|(dep & Hdep & E)]|(f' & dep & Hf & Hdep & E)]; eauto 7.
      + intros [H|(f' & dep & [<-|Hf] & Hdep & E)]; eauto 7. }
  rewrite (Houter (keys r) [] (fun e (H : In e []) => match H with end)).
  split.
  - intros [[]|(f & dep & Hf & Hdep & E)]. apply Hent in E.
    destruct E as (E & Hin & Hn). simpl in E. inversion E; subst. eauto.
  - intros (Hin & Hn & f & Hf & Hdep). right. exists f, p.
    repeat split; auto. apply Hent. auto.
Qed.

Lemma dependency_pass_iff r p content :
  incl r (file_contents self) ->
  In (p, content) (dependency_pass self r) <->
  In (p, content) r
  \/ (In (p, content) (file_contents self)
      /\ exists f, In f (keys r) /\ In p (_find_all_dependencies self f)).
Proof.
  intros Hr. unfold dependency_pass, dict_update.
  destruct (fold_store (file_contents self) corpus_keys (fun kv => Some kv)
              (fun acc kv => dict_set acc (fst kv) (snd kv))
              (dependency_files_of self r)) with (r := r) as [_ H]; auto.
  - intros acc kv Hacc Hkv. split; [|now left].
    destruct kv as [k v]. apply dependency_files_iff in Hkv. tauto.
  - rewrite H. split.
    + intros [H0|(x & Hx & [= ->])]; [now left|].
      apply dependency_files_iff in Hx. right. tauto.
    + intros [H0|(Hin & f & Hf & Hdep)]; [now left|].
      destruct (in_dec string_dec p (keys r)) as [Hk|Hk].
      * left. now apply (key_present (file_contents self) corpus_keys).
      * right. exists (p, content). split; [|reflexivity].
        apply dependency_files_iff. eauto.
Qed.

End PassFacts.

(** The list [_find_all_dependencies] returns: what the file depends on. *)
Lemma find_all_dependencies_iff self f p :
  In p (_find_all_dependencies self f) <-> depends_on (dependency_graph self) f p.
Proof.
  unfold _find_all_dependencies, depends_on.
  destruct (SelectorClaims.traversal_result (dependency_graph self) f)
    as (r & v & E & _ & _ & Hr).
  rewrite (E _ (le_n _)). apply Hr.
Qed.

Lemma keys_entry (d : dict string) k : In k (keys d) <-> exists v, In (k, v) d.
Proof.
  unfold keys. rewrite in_map_iff. split.
  - intros ([k' v] & E & H). simpl in E. subst. eauto.
  - intros (v & H). exists (k, v). auto.
Qed.

(** X1: The first two passes select the files in which a keyword of the
    prompt occurs, in the text or in the path, and, when the prompt
    names the VPC or the network, those in which a VPC keyword occurs;
    nothing else. *)
Theorem direct_selection_exact (files : list (string * string)) (prompt p content : string) :
  let self := init files in
  In (p, content)
     (vpc_pass self prompt (keyword_pass self (_extract_keywords_from_prompt prompt)))
  <-> In (p, content) (file_contents self) /\ directly_selected prompt p content.
Proof.
  intros self. pose proof (init_keys files) as Hk. fold self in Hk.
  rewrite (vpc_pass_iff self Hk); [| apply (keyword_pass_within self Hk)].
  rewrite (keyword_pass_iff self Hk). unfold directly_selected. tauto.
Qed.

(** X2: The dependency pass adds to a running result the corpus files that
    a file of the result depends on, directly or through other files,
    and nothing else. *)
Theorem dependency_pass_exact (files : list (string * string))
    (relevant_files : dict string) (p content : string) :
  let self := init files in
  incl relevant_files (file_contents self) ->
  (In (p, content) (dependency_pass self relevant_files)
   <-> In (p, content) relevant_files
       \/ (In (p, content) (file_contents self)
           /\ exists f, In f (keys relevant_files)
                        /\ depends_on (dependency_graph self) f p)).
Proof.
  intros self Hr. pose proof (init_keys files) as Hk. fold self in Hk.
  rewrite (dependency_pass_iff self Hk relevant_files p content Hr).
  split; (intros [H|(H & f & Hf & Hd)]; [now left | right; split; [assumption|]]);
    exists f; (split; [assumption|]); now apply find_all_dependencies_iff.
Qed.

Lemma dependency_pass_exact_witness :
  In ("network/outputs.tf", "# nothing here")
     (dependency_pass (init network_corpus)
        [("app/main.tf", q "module 'net' { source = '../network' }")]).
Proof.
  apply (proj2 (dependency_pass_exact network_corpus
                  [("app/main.tf", q "module 'net' { source = '../network' }")]
                  "network/outputs.tf" "# nothing here"
                  ltac:(intros e [<-|[]]; vm_compute; left; reflexivity))).
  right. split; [vm_compute; right; left; reflexivity|].
  exists "app/main.tf". split; [left; reflexivity|].
  exists "app/main.tf". split; [constructor|]. vm_compute. left. reflexivity.
Defined.

(** X3: The fallback adds the corpus files named main.tf, variables.tf or
    outputs.tf, and only when fewer than three files are selected;
    otherwise it adds nothing. *)
Theorem fallback_pass_exact (files : list (string * string))
    (relevant_files : dict string) (p content : string) :
  let self := init files in
  incl relevant_files (file_contents self) ->
  (In (p, content) (fallback_pass self relevant_files)
   <-> In (p, content) relevant_files
       \/ (length relevant_files < 3 /\ In (p, content) (file_contents self)
           /\ important p = true)).
Proof.
  intros self Hr. pose proof (init_keys files) as Hk. fold self in Hk.
  now apply fallback_pass_iff.
Qed.

Lemma fallback_pass_exact_witness :
  In ("variables.tf", q "variable 'region' {}") (fallback_pass (init two_file_corpus) []).
Proof.
  apply (proj2 (fallback_pass_exact two_file_corpus [] "variables.tf"
                  (q "variable 'region' {}") ltac:(intros e []))).
  right. split; [simpl; lia|]. split; [vm_compute; right; left; reflexivity|].
  vm_compute. reflexivity.
Defined.

(** X4: The result of [find_relevant_files], exactly: the corpus files that
    are directly selected, those that a directly selected file depends
    on, and, when these are fewer than three, those with one of the
    three fallback names. *)
Theorem find_relevant_files_exact (files : list (string * string)) (prompt p content : string) :
  let self := init files in
  In (p, content) (find_relevant_files self prompt)
  <-> In (p, content) (file_contents self)
      /\ (directly_selected prompt p content
          \/ (exists f content_f,
                In (f, content_f) (file_contents self)
                /\ directly_selected prompt f content_f
                /\ depends_on (dependency_graph self) f p)
          \/ (length (before_fallback self prompt) < 3 /\ important p = true)).
Proof.
  intros self. pose proof (init_keys files) as Hk. fold self in Hk.
  unfold find_relevant_files.
  set (r1 := keyword_pass self (_extract_keywords_from_prompt prompt)).
  set (r2 := vpc_pass self prompt r1).
  assert (H1 : within self r1) by apply (keyword_pass_within self Hk).
  destruct (vpc_pass_grows self Hk prompt r1 H1) as [_ H2]. fold r2 in H2.
  destruct (dependency_pass_grows self Hk r2 H2) as [_ H3].
  change (dependency_pass self r2) with (before_fallback self prompt) in *.
  rewrite (fallback_pass_iff self Hk); [|apply H3].
  unfold before_fallback. fold r1. fold r2.
  rewrite (dependency_pass_iff self Hk r2 p content (proj1 H2)).
  assert (D : forall x y, In (x, y) r2 <->
                In (x, y) (file_contents self) /\ directly_selected prompt x y).
  { intros x y. apply (direct_selection_exact files prompt x y). }
  rewrite D. split.
  - intros [[[Hin Hs]|(Hin & f & Hf & Hd)]|(Hlen & Hin & Hi)]; (split; [assumption|]); auto.
    right. left. apply keys_entry in Hf. destruct Hf as (cf & Hcf). apply D in Hcf.
    exists f, cf. destruct Hcf. repeat split; auto. now apply find_all_dependencies_iff.
  - intros (Hin & [Hs|[(f & cf & Hf & Hsf & Hd)|(Hlen & Hi)]]); auto.
    left. right. split; [assumption|]. exists f. split.
    + apply keys_entry. exists cf. apply D. auto.
    + now apply find_all_dependencies_iff.
Qed.

End SelectionExtras.

(** ** The built graph, the files sent to the client, the configuration *)

Module PipelineExtras.
Import PyStr Analyzer Spec Aux Notions Inputs.
Import SelectorFacts TraversalFacts GraphFacts SelectionExtras.

Lemma graph_append_keys graph f x : keys (graph_append graph f x) = keys graph.
Proof.
  induction graph as [|[k deps] graph IH]; simpl; [reflexivity|].
  destruct (String.eqb k f); simpl; [reflexivity | now rewrite IH].
Qed.

Lemma fold_add_edges_keys {X : Type} (targets : X -> list string) f (xs : list X) :
  forall graph,
    keys (fold_left (fun g x => add_edges g f (targets x)) xs graph) = keys graph.
Proof.
  assert (A : forall ts graph, keys (add_edges graph f ts) = keys graph).
  { unfold add_edges. induction ts as [|t ts IH]; intros graph; simpl; [reflexivity|].
    now rewrite IH, graph_append_keys. }
  induction xs as [|x xs IH]; intros graph; simpl; [reflexivity|].
  now rewrite IH, A.
Qed.

Lemma build_keys contents (l : list (string * string)) :
  forall graph,
    keys (fold_left (fun g kv => file_edges contents g (fst kv) (snd kv)) l graph)
    = keys graph.
Proof.
  induction l as [|kv l IH]; intros graph; simpl; [reflexivity|].
  rewrite IH. unfold file_edges.
  now rewrite (fold_add_edges_keys (variable_targets contents)),
              (fold_add_edges_keys (module_targets contents (fst kv))).
Qed.

Lemma set_same_keys {A B : Type} (d : dict A) (d' : dict B) k v v' :
  keys d = keys d' -> keys (dict_set d k v) = keys (dict_set d' k v').
Proof.
  intros E. rewrite !dict_set_keys. unfold dict_mem. now rewrite E.
Qed.

Lemma load_keys_agree (files : list (string * string)) :
  forall self, keys (dependency_graph self) = keys (file_contents self) ->
    let loaded := fold_left (fun self f =>
                    mk_analyzer (dict_set (file_contents self) (fst f) (snd f))
                                (dict_set (dependency_graph self) (fst f) []))
                    files self in
    keys (dependency_graph loaded) = keys (file_contents loaded).
Proof.
  induction files as [|f files IH]; intros self E; simpl; [assumption|].
  apply IH. simpl. now apply set_same_keys.
Qed.

(** X5: The graph has the paths of the corpus as its keys, in the same
    order: every [self.dependency_graph[file_path]] of the builder finds
    its key. *)
Theorem graph_keys_are_corpus_paths (files : list (string * string)) :
  keys (dependency_graph (init files)) = keys (file_contents (init files)).
Proof.
  unfold init, _load_terraform_files, _build_dependency_graph. simpl.
  rewrite build_keys. apply load_keys_agree. reflexivity.
Qed.

Lemma edges_of_in_corpus contents f content d :
  In d (edges_of contents f content) -> In d (keys contents).
Proof.
  unfold edges_of. intros H. apply in_app_or in H.
  destruct H as [H|H]; apply in_flat_map in H; destruct H as (x & _ & H).
  - unfold module_targets in H. destruct (_ || _)%bool; [|destruct H].
    now apply filter_In in H.
  - unfold variable_targets in H. apply in_map_iff in H.
    destruct H as ([k v] & <- & H). apply filter_In in H. destruct H as [H _].
    eapply in_keys. exact H.
Qed.

(** X6: In the graph of a corpus, whatever a file depends on, directly or
    through other files, is a file of the corpus: the test
    [dep in self.file_contents] of the dependency pass never fails. *)
Theorem dependencies_are_corpus_files (files : list (string * string)) (f dep : string) :
  In dep (_find_all_dependencies (init files) f) ->
  In dep (keys (file_contents (init files))).
Proof.
  intros H. apply find_all_dependencies_iff in H. destruct H as (x & _ & He).
  unfold edge in He. apply init_edge_iff in He. destruct He as (content & _ & Hd).
  eapply edges_of_in_corpus. exact Hd.
Qed.

Lemma dependencies_are_corpus_files_witness :
  In "network/outputs.tf" (keys (file_contents (init network_corpus))).
Proof.
  apply (dependencies_are_corpus_files network_corpus "app/main.tf").
  vm_compute. left. reflexivity.
Defined.

(** *** [enhance_terraform_code] *)

(** X7: For a corpus that is not empty the enhancer hands the client at
    least one file, and only files of the corpus with their own text,
    each path once. *)
Theorem files_for_llm_not_empty (files : list (string * string)) (prompt : string) :
  let self := init files in
  file_contents self <> [] ->
  Enhancer.files_for_llm self prompt <> []
  /\ incl (Enhancer.files_for_llm self prompt) (file_contents self)
  /\ NoDup (keys (Enhancer.files_for_llm self prompt)).
Proof.
  intros self Hne. pose proof (init_keys files) as Hk. fold self in Hk.
  assert (H1 : within self (keyword_pass self (_extract_keywords_from_prompt prompt)))
    by now apply keyword_pass_within.
  destruct (vpc_pass_grows self Hk prompt _ H1) as [_ H2].
  destruct (dependency_pass_grows self Hk _ H2) as [_ H3].
  destruct (fallback_pass_grows self Hk _ H3) as [_ [H4 N4]].
  unfold Enhancer.files_for_llm.
  change (find_relevant_files self prompt)
    with (fallback_pass self (dependency_pass self (vpc_pass self prompt
           (keyword_pass self (_extract_keywords_from_prompt prompt))))).
  destruct (fallback_pass _ _) as [|kv r] eqn:E.
  - repeat split; [assumption | apply incl_refl | assumption].
  - repeat split; [discriminate | assumption | assumption].
Qed.

Lemma files_for_llm_not_empty_witness :
  Enhancer.files_for_llm (init subnet_corpus) "rename things" <> []
  /\ incl (Enhancer.files_for_llm (init subnet_corpus) "rename things")
          (file_contents (init subnet_corpus))
  /\ NoDup (keys (Enhancer.files_for_llm (init subnet_corpus) "rename things")).
Proof.
  apply (files_for_llm_not_empty subnet_corpus "rename things").
  vm_compute. discriminate.
Defined.

(** *** [main] and [TerraformEnhancer.__init__] *)

Lemma get_set_if cond config key value key' :
  dict_get (Main.set_if cond config key value) key'
  = if (cond && String.eqb key key')%bool then Some (Json.Str value)
    else dict_get config key'.
Proof.
  unfold Main.set_if. destruct cond; simpl; [apply dict_get_set | reflexivity].
Qed.

Lemma mem_set_if cond config key value key' :
  dict_mem (Main.set_if cond config key value) key'
  = ((cond && String.eqb key key') || dict_mem config key')%bool.
Proof.
  unfold Main.set_if. destruct cond; simpl; [apply dict_mem_set | reflexivity].
Qed.

Lemma provider_name_truthy p : GitHub.truthy (Main.provider_name p) = true.
Proof. destruct p; reflexivity. Qed.

Lemma lower_provider_name p : lower (Main.provider_name p) = Main.provider_name p.
Proof. destruct p; vm_compute; reflexivity. Qed.

(** X8: The client [main] ends up with talks to the provider chosen on the
    command line ([openai] when the option is absent), whatever the
    configuration file says under [provider]; its key is the one of
    [--api-key] when that is given and not empty, else the one of the
    configuration file. *)
Theorem client_follows_command_line (loaded : dict Json.value) (a : Main.args) :
  exists client,
    Enhancer.new_enhancer (Main.effective_config loaded a) = Some client
    /\ Enhancer.provider client = Main.provider_name (Main.provider a)
    /\ Enhancer.chosen_api client
       = match Main.provider a with
         | Main.openai => Enhancer.OpenAI
         | Main.anthropic => Enhancer.Anthropic
         end
    /\ Enhancer.api_key client
       = if GitHub.truthy_opt (Main.api_key a)
         then Json.Str (GitHub.token_text (Main.api_key a))
         else Enhancer.config_get loaded "api_key" (Json.Str EmptyString).
Proof.
  unfold Enhancer.new_enhancer, Enhancer.config_get, Main.effective_config.
  rewrite !get_set_if, provider_name_truthy. simpl.
  rewrite !andb_false_r, andb_true_r.
  eexists. split; [reflexivity|]. simpl.
  rewrite lower_provider_name. repeat split.
  - unfold Enhancer.chosen_api. simpl. rewrite lower_provider_name.
    destruct (Main.provider a); reflexivity.
  - destruct (GitHub.truthy_opt (Main.api_key a)); reflexivity.
Qed.

(** X9: [main] gives up for want of a key exactly when [--api-key] is absent
    or empty and the configuration file has no entry [api_key]; an entry
    of any value, the empty string too, lets it go on. *)
Theorem api_key_required_iff (loaded : dict Json.value) (a : Main.args) :
  Main.missing_api_key loaded a = Some 1
  <-> GitHub.truthy_opt (Main.api_key a) = false /\ ~ In "api_key" (keys loaded).
Proof.
  unfold Main.missing_api_key, Main.effective_config.
  rewrite !mem_set_if. simpl. rewrite !andb_false_r, andb_true_r. simpl.
  rewrite <- dict_mem_false.
  destruct (GitHub.truthy_opt (Main.api_key a)), (dict_mem loaded "api_key"); simpl;
    split; try discriminate; try tauto; intros [? ?]; discriminate.
Qed.

End PipelineExtras.

(** ** [github_utils.py]: the parts of a repository URL *)

Module UrlFacts.
Import PyStr Spec Aux Notions Re GitHub StrFacts FenceFacts.

(** [p*] over a run of [p] that ends: if the rest of the pattern matches
    after the whole run, that is the match. *)
Lemma greedy_run p w : forall t k gs pv i r,
  all_chars p w = true -> stops p t = true ->
  k (mk_state (last_char pv w) (i + String.length w) t gs) = Some r ->
  star_greedy p k gs pv i (w ++ t)%string = Some r.
Proof.
  induction w as [|a w IH]; intros t k gs pv i r Hw Ht Hk;
    cbn [append last_char String.length] in *.
  - rewrite Nat.add_0_r in Hk. destruct t as [|c t]; [exact Hk|].
    cbn [star_greedy]. simpl in Ht. apply negb_true_iff in Ht. now rewrite Ht.
  - simpl in Hw. apply andb_true_iff in Hw. destruct Hw as [Ha Hw].
    cbn [star_greedy]. rewrite Ha.
    rewrite (IH t k gs (Some a) (S i) r); auto.
    now rewrite Nat.add_succ_r in Hk.
Qed.

Lemma run_plus p w t k gs pv i r :
  GitHub.truthy w = true -> all_chars p w = true -> stops p t = true ->
  k (mk_state (last_char pv w) (i + String.length w) t gs) = Some r ->
  run (plus p) (mk_state pv i (w ++ t)%string gs) k = Some r.
Proof.
  intros Hne Hw Ht Hk. destruct w as [|a w]; [discriminate|].
  simpl in Hw. apply andb_true_iff in Hw. destruct Hw as [Ha Hw].
  unfold plus. cbn [append]. rewrite ReFacts.run_seq, ReFacts.run_cls, Ha.
  rewrite ReFacts.run_greedy. apply greedy_run; auto.
  cbn [last_char String.length] in Hk. now rewrite Nat.add_succ_r in Hk.
Qed.

Lemma run_plus_fails p t k gs pv i :
  stops p t = true -> run (plus p) (mk_state pv i t gs) k = None.
Proof.
  intros Ht. unfold plus. rewrite ReFacts.run_seq. destruct t as [|c t].
  - apply ReFacts.run_cls_end.
  - rewrite ReFacts.run_cls. simpl in Ht. apply negb_true_iff in Ht. now rewrite Ht.
Qed.

Lemma run_alt_left r1 r2 st k r :
  run r1 st k = Some r -> run (Alt r1 r2) st k = Some r.
Proof. intros H. cbn [run]. now rewrite H. Qed.

Lemma run_alt_right r1 r2 st k :
  run r1 st k = None -> run (Alt r1 r2) st k = run r2 st k.
Proof. intros H. cbn [run]. now rewrite H. Qed.

Lemma substring_run a b i :
  substring 0 (i + String.length a - i) (a ++ b)%string = a.
Proof.
  replace (i + String.length a - i) with (String.length a) by lia.
  apply substring_prefix.
Qed.

Lemma substring_whole a i : substring 0 (i + String.length a - i) a = a.
Proof.
  rewrite <- (append_nil_r a) at 2. apply substring_run.
Qed.


Lemma segment_parts s :
  segment s = true -> GitHub.truthy s = true /\ all_chars not_slash s = true.
Proof. unfold segment. now rewrite andb_true_iff. Qed.

Lemma one_line_parts s :
  one_line s = true -> GitHub.truthy s = true /\ all_chars not_newline s = true.
Proof. unfold one_line. now rewrite andb_true_iff. Qed.

(** The part of the pattern up to the repository name. *)
Lemma head_run owner repo tail r gs :
  segment owner = true -> segment repo = true -> stops not_slash tail = true ->
  (forall pv i, exists st,
      run r (mk_state pv i tail [(1, owner ++ "/" ++ repo)%string]) Some = Some st
      /\ groups st = gs) ->
  exists st,
    run (Seq (lit "https://github.com/") (Seq (Group 1 repo_part) r))
        (mk_state None 0 ("https://github.com/" ++ owner ++ "/" ++ repo ++ tail)%string [])
        Some = Some st
    /\ groups st = gs.
Proof.
  intros Ho Hr Ht H.
  apply segment_parts in Ho. destruct Ho as [Ho1 Ho2].
  apply segment_parts in Hr. destruct Hr as [Hr1 Hr2].
  destruct (H (last_char (Some "/"%char) repo)
              (S (0 + String.length "https://github.com/" + String.length owner)
               + String.length repo))
    as (st & Hst & Hg).
  exists st. split; [|exact Hg].
  rewrite ReFacts.run_seq, run_lit, ReFacts.run_seq, ReFacts.run_group.
  unfold repo_part. cbn [cat]. rewrite ReFacts.run_seq.
  apply run_plus; [assumption | assumption | reflexivity |].
  rewrite ReFacts.run_seq. cbn [append]. rewrite ReFacts.run_chr, Ascii.eqb_refl.
  rewrite ReFacts.run_seq.
  apply run_plus; [assumption | assumption | assumption |].
  rewrite ReFacts.run_eps. cbn [pos rest prev groups].
  replace (substring 0 _ _) with (owner ++ "/" ++ repo)%string; [exact Hst|].
  symmetry.
  replace (owner ++ String "/" (repo ++ tail))%string
    with ((owner ++ "/" ++ repo) ++ tail)%string
    by (rewrite append_assoc; reflexivity).
  replace (_ - _) with (String.length (owner ++ "/" ++ repo)%string).
  - apply substring_prefix.
  - rewrite append_length. cbn [append String.length]. lia.
Qed.

Lemma match_groups url gs :
  (exists st, run url_pattern (mk_state None 0 url []) Some = Some st /\ groups st = gs) ->
  exists m, re_match url_pattern url = Some m /\ m_groups m = gs.
Proof.
  intros (st & Hst & Hg). unfold re_match, match_at. rewrite Hst.
  eexists. split; [reflexivity | exact Hg].
Qed.

(** [/tree/branch/path] *)
Lemma tree_path_run branch path pv i gs :
  segment branch = true -> one_line path = true ->
  exists st,
    run (Seq (optional tree_part) Eps)
        (mk_state pv i ("/tree/" ++ branch ++ "/" ++ path)%string gs) Some = Some st
    /\ groups st = (3, path) :: (2, branch) :: gs.
Proof.
  intros Hb Hp.
  apply segment_parts in Hb. destruct Hb as [Hb1 Hb2].
  apply one_line_parts in Hp. destruct Hp as [Hp1 Hp2].
  eexists. split.
  - rewrite ReFacts.run_seq. unfold optional. apply run_alt_left.
    unfold tree_part. cbn [cat]. rewrite ReFacts.run_seq, run_lit.
    rewrite ReFacts.run_seq, ReFacts.run_group.
    apply run_plus; [assumption | assumption | reflexivity |].
    cbn [pos rest prev groups]. rewrite substring_run.
    rewrite ReFacts.run_seq. apply run_alt_left.
    unfold path_part. cbn [cat append].
    rewrite ReFacts.run_seq, ReFacts.run_chr, Ascii.eqb_refl.
    rewrite ReFacts.run_seq, ReFacts.run_group.
    rewrite <- (append_nil_r path) at 1.
    apply run_plus; [assumption | assumption | reflexivity |].
    cbn [pos rest prev groups].
    rewrite !ReFacts.run_eps. reflexivity.
  - cbn [groups]. rewrite substring_whole. reflexivity.
Qed.

(** [/tree/branch], with or without a slash after it *)
Lemma tree_run branch t pv i gs :
  segment branch = true -> t = EmptyString \/ t = "/" ->
  exists st,
    run (Seq (optional tree_part) Eps)
        (mk_state pv i ("/tree/" ++ branch ++ t)%string gs) Some = Some st
    /\ groups st = (2, branch) :: gs.
Proof.
  intros Hb Ht.
  apply segment_parts in Hb. destruct Hb as [Hb1 Hb2].
  eexists. split.
  - rewrite ReFacts.run_seq. unfold optional. apply run_alt_left.
    unfold tree_part. cbn [cat]. rewrite ReFacts.run_seq, run_lit.
    rewrite ReFacts.run_seq, ReFacts.run_group.
    apply run_plus; [assumption | assumption | destruct Ht; subst; reflexivity |].
    cbn [pos rest prev groups]. rewrite substring_run.
    rewrite ReFacts.run_seq. unfold optional. rewrite run_alt_right.
    + rewrite !ReFacts.run_eps. reflexivity.
    + unfold path_part. cbn [cat]. rewrite ReFacts.run_seq.
      destruct Ht; subst.
      * apply ReFacts.run_chr_end.
      * rewrite ReFacts.run_chr, Ascii.eqb_refl.
        rewrite ReFacts.run_seq, ReFacts.run_group.
        apply run_plus_fails. reflexivity.
  - reflexivity.
Qed.

(** No [/tree/] after the repository name *)
Lemma no_tree_run tail pv i gs :
  startswith tail "/tree/" = false ->
  exists st,
    run (Seq (optional tree_part) Eps) (mk_state pv i tail gs) Some = Some st
    /\ groups st = gs.
Proof.
  intros Ht. eexists. split.
  - rewrite ReFacts.run_seq. unfold optional. rewrite run_alt_right.
    + rewrite !ReFacts.run_eps. reflexivity.
    + unfold tree_part. cbn [cat]. rewrite ReFacts.run_seq. now apply run_lit_fails.
  - reflexivity.
Qed.

(** *** [str.replace] *)

Lemma replace_skip w : forall t old new,
  replace_from (w ++ t)%string old new (String.length w) = replace_from t old new 0.
Proof.
  induction w as [|c w IH]; intros t old new; simpl.
  - destruct t; reflexivity.
  - apply IH.
Qed.

Lemma replace_prefix c old t new :
  replace (String c old ++ t)%string (String c old) new
  = (new ++ replace t (String c old) new)%string.
Proof.
  unfold replace. cbn [append]. cbn [replace_from].
  assert (E : startswith (String c (old ++ t)) (String c old) = true).
  { apply startswith_iff. now exists t. }
  rewrite E.
  replace (String.length (String c old) - 1) with (String.length old)
    by (cbn [String.length]; lia).
  now rewrite replace_skip.
Qed.

Lemma replace_absent old new s :
  contains s old = false -> replace s old new = s.
Proof.
  unfold replace. induction s as [|c s IH]; intros H.
  - cbn [contains] in H. rewrite orb_false_r in H. cbn [replace_from]. now rewrite H.
  - change (contains (String c s) old)
      with (startswith (String c s) old || contains s old)%bool in H.
    apply orb_false_iff in H. destruct H as [H1 H2].
    cbn [replace_from]. rewrite H1. now rewrite IH.
Qed.

Lemma contains_part s a b c :
  contains s (a ++ b ++ c)%string = true -> contains s b = true.
Proof.
  rewrite !contains_iff. unfold occurs_in. intros (pre & post & ->).
  exists (pre ++ a)%string, (c ++ post)%string.
  now rewrite !append_assoc.
Qed.

Lemma run_no_double_slash w : forall t,
  all_chars not_slash w = true -> contains t "//" = false ->
  contains (w ++ t)%string "//" = false.
Proof.
  induction w as [|c w IH]; intros t Hw Ht; [exact Ht|].
  simpl in Hw. apply andb_true_iff in Hw. destruct Hw as [Hc Hw].
  cbn [append].
  change (contains (String c (w ++ t)) "//")
    with (startswith (String c (w ++ t)) "//" || contains (w ++ t) "//")%bool.
  rewrite IH by assumption. rewrite orb_false_r.
  unfold not_slash in Hc. apply negb_true_iff in Hc.
  cbn [startswith]. now rewrite Hc.
Qed.

Lemma slash_run_no_double_slash w t :
  GitHub.truthy w = true -> all_chars not_slash w = true ->
  contains t "//" = false ->
  contains ("/" ++ w ++ t)%string "//" = false.
Proof.
  intros Hne Hw Ht. cbn [append].
  change (contains (String "/" (w ++ t)) "//")
    with (startswith (String "/" (w ++ t)) "//" || contains (w ++ t) "//")%bool.
  rewrite run_no_double_slash by assumption. rewrite orb_false_r.
  destruct w as [|c w]; [discriminate|].
  simpl in Hw. apply andb_true_iff in Hw. destruct Hw as [Hc _].
  unfold not_slash in Hc. apply negb_true_iff in Hc.
  cbn [append startswith]. rewrite Hc. reflexivity.
Qed.

(** The token goes in once, in front of the host. *)
Lemma with_token_name owner repo t :
  segment owner = true -> segment repo = true ->
  with_token ("https://github.com/" ++ owner ++ "/" ++ repo)%string t
  = ("https://" ++ t ++ "@github.com/" ++ owner ++ "/" ++ repo)%string.
Proof.
  intros Ho Hr.
  apply segment_parts in Ho. destruct Ho as [Ho1 Ho2].
  apply segment_parts in Hr. destruct Hr as [Hr1 Hr2].
  unfold with_token.
  change ("https://github.com/" ++ owner ++ "/" ++ repo)%string
    with ("https://github.com" ++ ("/" ++ owner ++ "/" ++ repo))%string.
  rewrite (replace_prefix "h" "ttps://github.com").
  rewrite replace_absent.
  - rewrite !append_assoc. reflexivity.
  - destruct (contains _ "https://github.com") eqn:E; [|reflexivity].
    apply (contains_part _ "https:" "//" "github.com") in E.
    rewrite slash_run_no_double_slash in E; auto.
    rewrite <- (append_nil_r repo). apply slash_run_no_double_slash; auto.
Qed.

End UrlFacts.

Module UrlExtras.
Import PyStr Spec Aux Notions Re GitHub StrFacts FenceFacts UrlFacts.

Lemma init_of_match url tok m :
  re_match url_pattern url = Some m ->
  init url tok
  = mk_repo url tok (group_opt (m_groups m) 3)
      ("https://github.com/" ++ lookup_group (m_groups m) 1)%string
      match group_opt (m_groups m) 2 with
      | Some b => if GitHub.truthy b then b else "main"
      | None => "main"
      end
      (Some (lookup_group (m_groups m) 1))
      (if truthy_opt tok
       then with_token ("https://github.com/" ++ lookup_group (m_groups m) 1)%string
              (token_text tok)
       else ("https://github.com/" ++ lookup_group (m_groups m) 1)%string).
Proof. intros H. unfold init. rewrite H. reflexivity. Qed.

(** X10: A URL [https://github.com/owner/repo/tree/branch/path] is taken
    apart into the repository [owner/repo], the branch and the nested
    path, which may have slashes of its own; the clone URL is the URL of
    the repository, and a token, when there is one, goes into it once, in
    front of the host. *)
Theorem tree_url_with_path (owner repo br path : string) (tok : option string) :
  segment owner = true -> segment repo = true -> segment br = true ->
  one_line path = true ->
  init ("https://github.com/" ++ owner ++ "/" ++ repo ++ "/tree/" ++ br ++ "/" ++ path) tok
  = mk_repo
      ("https://github.com/" ++ owner ++ "/" ++ repo ++ "/tree/" ++ br ++ "/" ++ path)
      tok (Some path)
      ("https://github.com/" ++ owner ++ "/" ++ repo)
      br
      (Some (owner ++ "/" ++ repo)%string)
      (if truthy_opt tok
       then ("https://" ++ token_text tok ++ "@github.com/" ++ owner ++ "/" ++ repo)%string
       else ("https://github.com/" ++ owner ++ "/" ++ repo)%string).
Proof.
  intros Ho Hr Hb Hp.
  destruct (match_groups
              ("https://github.com/" ++ owner ++ "/" ++ repo ++ "/tree/" ++ br ++ "/" ++ path)
              [(3, path); (2, br); (1, owner ++ "/" ++ repo)%string])
    as (m & Hm & Hg).
  { apply (head_run owner repo ("/tree/" ++ br ++ "/" ++ path)); auto.
    intros pv i. now apply tree_path_run. }
  rewrite (init_of_match _ _ m Hm), Hg. cbn [group_opt lookup_group Nat.eqb].
  apply segment_parts in Hb. destruct Hb as [Hb _]. rewrite Hb.
  now rewrite with_token_name.
Qed.

Lemma tree_url_with_path_witness :
  init "https://github.com/acme/infra/tree/dev/modules/vpc" (Some "s3cret")
  = mk_repo "https://github.com/acme/infra/tree/dev/modules/vpc" (Some "s3cret")
      (Some "modules/vpc") "https://github.com/acme/infra" "dev" (Some "acme/infra")
      "https://s3cret@github.com/acme/infra".
Proof.
  exact (tree_url_with_path "acme" "infra" "dev" "modules/vpc" (Some "s3cret")
           eq_refl eq_refl eq_refl eq_refl).
Defined.

(** X11: A URL [https://github.com/owner/repo/tree/branch], with or without a
    slash at its end, gives the repository and the branch and no nested
    path. *)
Theorem tree_url_without_path (owner repo br t : string) (tok : option string) :
  segment owner = true -> segment repo = true -> segment br = true ->
  t = EmptyString \/ t = "/" ->
  init ("https://github.com/" ++ owner ++ "/" ++ repo ++ "/tree/" ++ br ++ t) tok
  = mk_repo
      ("https://github.com/" ++ owner ++ "/" ++ repo ++ "/tree/" ++ br ++ t)
      tok None
      ("https://github.com/" ++ owner ++ "/" ++ repo)
      br
      (Some (owner ++ "/" ++ repo)%string)
      (if truthy_opt tok
       then ("https://" ++ token_text tok ++ "@github.com/" ++ owner ++ "/" ++ repo)%string
       else ("https://github.com/" ++ owner ++ "/" ++ repo)%string).
Proof.
  intros Ho Hr Hb Ht.
  destruct (match_groups
              ("https://github.com/" ++ owner ++ "/" ++ repo ++ "/tree/" ++ br ++ t)
              [(2, br); (1, owner ++ "/" ++ repo)%string])
    as (m & Hm & Hg).
  { apply (head_run owner repo ("/tree/" ++ br ++ t)); auto.
    intros pv i. now apply tree_run. }
  rewrite (init_of_match _ _ m Hm), Hg. cbn [group_opt lookup_group Nat.eqb].
  apply segment_parts in Hb. destruct Hb as [Hb _]. rewrite Hb.
  now rewrite with_token_name.
Qed.

Lemma tree_url_without_path_witness :
  init "https://github.com/acme/infra/tree/dev/" None
  = mk_repo "https://github.com/acme/infra/tree/dev/" None
      None "https://github.com/acme/infra" "dev" (Some "acme/infra")
      "https://github.com/acme/infra".
Proof.
  exact (tree_url_without_path "acme" "infra" "dev" "/" None
           eq_refl eq_refl eq_refl (or_intror eq_refl)).
Defined.

(** X12: A URL [https://github.com/owner/repo], alone or followed by a slash
    and anything but [tree/], gives the repository and the branch [main];
    what follows the repository name is dropped from the clone URL. *)
Theorem repository_url (owner repo tail : string) (tok : option string) :
  segment owner = true -> segment repo = true ->
  stops not_slash tail = true -> startswith tail "/tree/" = false ->
  init ("https://github.com/" ++ owner ++ "/" ++ repo ++ tail) tok
  = mk_repo
      ("https://github.com/" ++ owner ++ "/" ++ repo ++ tail)
      tok None
      ("https://github.com/" ++ owner ++ "/" ++ repo)
      "main"
      (Some (owner ++ "/" ++ repo)%string)
      (if truthy_opt tok
       then ("https://" ++ token_text tok ++ "@github.com/" ++ owner ++ "/" ++ repo)%string
       else ("https://github.com/" ++ owner ++ "/" ++ repo)%string).
Proof.
  intros Ho Hr Hs Ht.
  destruct (match_groups
              ("https://github.com/" ++ owner ++ "/" ++ repo ++ tail)
              [(1, owner ++ "/" ++ repo)%string])
    as (m & Hm & Hg).
  { apply (head_run owner repo tail); auto.
    intros pv i. now apply no_tree_run. }
  rewrite (init_of_match _ _ m Hm), Hg. cbn [group_opt lookup_group Nat.eqb].
  now rewrite with_token_name.
Qed.

Lemma repository_url_witness :
  init "https://github.com/acme/infra.git/blob/main/README.md" (Some "s3cret")
  = mk_repo "https://github.com/acme/infra.git/blob/main/README.md" (Some "s3cret")
      None "https://github.com/acme/infra.git" "main" (Some "acme/infra.git")
      "https://s3cret@github.com/acme/infra.git".
Proof.
  exact (repository_url "acme" "infra.git" "/blob/main/README.md" (Some "s3cret")
           eq_refl eq_refl eq_refl eq_refl).
Defined.

(** X13: A URL that does not start with [https://github.com] is cloned as it
    is, from the branch [main], and no token is put into it. *)
Theorem other_url_unchanged (url : string) (tok : option string) :
  startswith url "https://github.com" = false ->
  init url tok = mk_repo url tok None url "main" None url.
Proof.
  intros H. unfold init, re_match.
  assert (Hm : match_at url_pattern None 0 url = None).
  { unfold url_pattern. cbn [cat]. apply match_needs_opening.
    destruct (startswith url "https://github.com/") eqn:E; [|reflexivity].
    apply (startswith_app url "https://github.com" "/") in E. congruence. }
  rewrite Hm, H, andb_false_r. reflexivity.
Qed.

Lemma other_url_unchanged_witness :
  init "git@github.com:acme/infra.git" (Some "s3cret")
  = mk_repo "git@github.com:acme/infra.git" (Some "s3cret") None
      "git@github.com:acme/infra.git" "main" None "git@github.com:acme/infra.git".
Proof.
  exact (other_url_unchanged "git@github.com:acme/infra.git" (Some "s3cret") eq_refl).
Defined.

Lemma clone_url_github url tok :
  startswith url "https://github.com" = true ->
  startswith (clone_url (init url tok)) "https://github.com" = true.
Proof.
  intros H. unfold init. destruct (re_match url_pattern url); cbn [clone_url].
  - apply startswith_iff. exists ("/" ++ Re.group m 1)%string. reflexivity.
  - exact H.
Qed.

(** X14: Whenever the URL starts with [https://github.com] and a token is
    given, the URL used for cloning starts with the token in front of the
    host, whether the URL was taken apart or not. *)
Theorem token_in_front_of_host (url t : string) :
  GitHub.truthy t = true -> startswith url "https://github.com" = true ->
  exists tail,
    auth_url (init url (Some t)) = ("https://" ++ t ++ "@github.com" ++ tail)%string.
Proof.
  intros Ht H.
  assert (E : auth_url (init url (Some t)) = with_token (clone_url (init url (Some t))) t).
  { unfold init. destruct (re_match url_pattern url); cbn [auth_url clone_url truthy_opt token_text].
    - now rewrite Ht.
    - now rewrite Ht, H. }
  rewrite E. pose proof (clone_url_github url (Some t) H) as Hc.
  apply startswith_iff in Hc. destruct Hc as (rest & ->).
  unfold with_token. rewrite (replace_prefix "h" "ttps://github.com").
  eexists. rewrite !append_assoc. reflexivity.
Qed.

Lemma token_in_front_of_host_witness :
  exists tail,
    auth_url (init "https://github.community/acme" (Some "s3cret"))
    = ("https://" ++ "s3cret" ++ "@github.com" ++ tail)%string.
Proof.
  exact (token_in_front_of_host "https://github.community/acme" "s3cret" eq_refl eq_refl).
Defined.

End UrlExtras.

(** ** [llm.py]: sections written and sections read *)

Module SectionFacts.
Import PyStr Spec Aux Notions Re LLM LLMPrompt StrFacts FenceFacts UrlFacts.

(** *** Strings *)

Lemma contains_suffix a : forall b t,
  contains (a ++ b)%string t = false -> contains b t = false.
Proof.
  induction a as [|c a IH]; intros b t H; [exact H|].
  cbn [append] in H.
  change (contains (String c (a ++ b)) t)
    with (startswith (String c (a ++ b)) t || contains (a ++ b) t)%bool in H.
  apply orb_false_iff in H. now apply IH.
Qed.

Lemma contains_start s t : contains s t = false -> startswith s t = false.
Proof.
  destruct s; cbn [contains]; intros H; apply orb_false_iff in H; tauto.
Qed.











(** *** The matcher *)



Lemma greedy_some p k gs s : forall pv i r,
  star_greedy p k gs pv i s = Some r ->
  exists a b pv' i', s = (a ++ b)%string /\ k (mk_state pv' i' b gs) = Some r.
Proof.
  induction s as [|c s IH]; intros pv i r H; cbn [star_greedy] in H.
  - exists EmptyString, EmptyString, pv, i. auto.
  - destruct (p c).
    + destruct (star_greedy p k gs (Some c) (S i) s) as [r'|] eqn:E.
      * destruct (IH _ _ _ E) as (a & b & pv' & i' & -> & Hk).
        exists (String c a), b, pv', i'. split; [reflexivity | congruence].
      * exists EmptyString, (String c s), pv, i. auto.
    + exists EmptyString, (String c s), pv, i. auto.
Qed.

Lemma finditer_none r s : forall pv i,
  (forall a b pv' i', s = (a ++ b)%string -> match_at r pv' i' b = None) ->
  finditer_from r pv i s 0 = [].
Proof.
  induction s as [|c s IH]; intros pv i H.
  - rewrite ReFacts.finditer_end. now rewrite (H EmptyString EmptyString pv i eq_refl).
  - rewrite ReFacts.finditer_step.
    rewrite (H EmptyString (String c s) pv i eq_refl).
    apply IH. intros a b pv' i' E. apply (H (String c a) b). simpl. now rewrite E.
Qed.



(** No section starts in a text without [---], or without [File:]. *)
Lemma no_section_without_markers s pv i :
  contains s "---" = false \/ contains s "File:" = false ->
  match_at file_pattern pv i s = None.
Proof.
  intros [H|H].
  - unfold file_pattern. cbn [cat]. apply match_needs_opening. now apply contains_start.
  - unfold file_pattern, match_at. cbn [cat]. rewrite ReFacts.run_seq.
    destruct (startswith s "---") eqn:E; [|now rewrite run_lit_fails].
    apply startswith_iff in E. destruct E as (t & ->).
    rewrite run_lit, ReFacts.run_seq, ReFacts.run_greedy.
    match goal with |- match ?x with _ => _ end = _ => destruct x as [r|] eqn:G end;
      [|reflexivity].
    exfalso. apply greedy_some in G. destruct G as (a & b & pv' & i' & -> & Hk).
    rewrite ReFacts.run_seq, run_lit_fails in Hk; [discriminate|].
    apply contains_start. apply (contains_suffix a).
    apply (contains_suffix "---"). exact H.
Qed.

(** *** The lookahead *)








(** *** One section *)


(** *** The text between two headers *)






End SectionFacts.

Module SectionExtras.
Import PyStr Spec Aux Notions Re LLM LLMPrompt StrFacts FenceFacts UrlFacts SectionFacts.














(** X16: A text in which [---] or [File:] does not occur has no section: the
    manual extraction gives the empty mapping. *)
Theorem no_marker_no_section (text : string) :
  contains text "---" = false \/ contains text "File:" = false ->
  _extract_files_manually text = [].
Proof.
  intros H. unfold _extract_files_manually, finditer.
  rewrite finditer_none; [reflexivity|].
  intros a b pv i E. apply no_section_without_markers.
  destruct H as [H|H]; [left | right]; apply (contains_suffix a); now rewrite <- E.
Qed.

Lemma no_marker_no_section_witness :
  _extract_files_manually "--- nothing was changed ---" = [].
Proof.
  apply (no_marker_no_section "--- nothing was changed ---").
  right. vm_compute. reflexivity.
Defined.

End SectionExtras.

(** ** Files without module blocks and variable references *)

Module LeafExtras.
Import PyStr Analyzer Spec Aux Notions Inputs.
Import SelectorFacts TraversalFacts GraphFacts StrFacts FenceFacts SectionFacts.
Import SelectionExtras.

Lemma no_match_without_opening open r s :
  contains s open = false ->
  Re.finditer (Re.Seq (Re.lit open) r) s = [].
Proof.
  intros H. unfold Re.finditer. apply finditer_none. intros a b pv i E.
  apply match_needs_opening. apply contains_start. apply (contains_suffix a).
  now rewrite <- E.
Qed.

Lemma no_edges_of contents f content :
  contains content "module" = false -> contains content "var." = false ->
  edges_of contents f content = [].
Proof.
  intros Hm Hv. unfold edges_of, _extract_module_sources, _extract_variable_references.
  unfold module_pattern, var_pattern. cbn [Re.cat].
  now rewrite !no_match_without_opening.
Qed.

(** X17: A file in whose text neither [module] nor [var.] occurs has no
    dependencies, whatever the other files of the corpus hold; so has a
    path that is no file of the corpus. *)
Theorem leaf_file_has_no_dependencies (files : list (string * string)) (f : string) :
  let self := init files in
  (forall content, In (f, content) (file_contents self) ->
     contains content "module" = false /\ contains content "var." = false) ->
  _find_all_dependencies self f = [].
Proof.
  intros self Hleaf.
  assert (Hno : forall p, ~ edge (dependency_graph self) f p).
  { intros p He. unfold edge in He. apply init_edge_iff in He.
    destruct He as (content & Hin & Hd).
    destruct (Hleaf content Hin) as [Hm Hv].
    now rewrite no_edges_of in Hd. }
  assert (Hr : forall x, reachable (dependency_graph self) f x -> x = f).
  { intros x Hx. induction Hx as [|y z _ -> He]; [reflexivity|].
    elim (Hno z He). }
  destruct (_find_all_dependencies self f) as [|p l] eqn:E; [reflexivity|].
  exfalso. assert (Hp : In p (_find_all_dependencies self f)) by (rewrite E; now left).
  apply find_all_dependencies_iff in Hp. destruct Hp as (x & Hx & He).
  apply Hr in Hx. subst x. exact (Hno p He).
Qed.

Lemma leaf_file_has_no_dependencies_witness :
  _find_all_dependencies (init network_corpus) "network/outputs.tf" = [].
Proof.
  apply (leaf_file_has_no_dependencies network_corpus "network/outputs.tf").
  vm_compute. intros content [H|[H|[]]]; inversion H; subst; split; reflexivity.
Defined.

End LeafExtras.
